(** * go-serial, [serial/open_darwin.go]: options conversion and device activation

    A shallow embedding of [round], [convertOptions], [setTermios] and
    [openInternal], and the properties of the specification checked
    against them.

    Conventions.
    - Go's [uint], [uint64] ([speed_t], [tcflag_t]) are integers of [Z] in
      [0, 2^64); [cc_t] is a byte, [0, 2^8).  Conversions write their
      wrap-around out ([speed_t], [tcflag_t], [cc_t] below).
    - [float64] is IEEE 754 binary64, taken from the Standard Library's
      [SpecFloat] at precision 53 and maximal exponent 1024.
    - The kernel is an explicit table of system-call answers, and the
      system calls a function makes are logged in a trace. *)

From Stdlib Require Import ZArith Lia Bool String List.
From Stdlib Require Import Floats.SpecFloat.
From stdpp Require Import base list gmap.

Local Open Scope Z_scope.

(** ** Machine integers *)

(** The width of [uint] (and of [uintptr]) on the 64-bit targets. *)
Definition uint_bits : Z := 64.

Definition cc_t (x : Z) : Z := x mod 2 ^ 8.
Definition speed_t (x : Z) : Z := x mod 2 ^ 64.
Definition tcflag_t (x : Z) : Z := x mod 2 ^ 64.

(** ** float64 *)

Module F64.

Definition prec : Z := 53.
Definition emax : Z := 1024.

Definition float64 : Type := spec_float.

(** [float64(n)] for an integer [n]: round to nearest, ties to even. *)
Definition of_Z (n : Z) : float64 := binary_normalize prec emax n 0 false.

Definition div (x y : float64) : float64 := SFdiv prec emax x y.
Definition add (x y : float64) : float64 := SFadd prec emax x y.
Definition mul (x y : float64) : float64 := SFmul prec emax x y.

(** The constants of the source: [100.0], [0.5], [100]. *)
Definition c100 : float64 := Eval vm_compute in of_Z 100.
Definition c0_5 : float64 := Eval vm_compute in div (of_Z 1) (of_Z 2).

(** The integer part of a finite float, rounded towards minus infinity. *)
Definition floorZ (s : bool) (m : positive) (e : Z) : Z :=
  Z.shiftl (cond_Zopp s (Z.pos m)) e.

(** [math.Floor]: zeros, infinities and NaN are returned as they are; a
    float with a non-negative exponent is an integer already. *)
Definition floor (x : float64) : float64 :=
  match x with
  | S754_finite s m e =>
      if 0 <=? e then x else binary_normalize prec emax (floorZ s m e) 0 s
  | _ => x
  end.

(** The integer part of a finite float, rounded towards zero. *)
Definition truncZ (s : bool) (m : positive) (e : Z) : Z :=
  cond_Zopp s (Z.shiftl (Z.pos m) e).

End F64.

(** [uint(f)] for a float64 [f], when the language defines it: the fractional
    part is discarded, and the integer part has to be a [uint]. *)
Definition float64_to_uint (f : F64.float64) : option Z :=
  match f with
  | S754_zero _ => Some 0
  | S754_finite s m e =>
      let n := F64.truncZ s m e in
      if (0 <=? n) && (n <? 2 ^ uint_bits) then Some n else None
  | _ => None
  end.

(** [uint(f)].  When the integer part is not a [uint] (also for infinities and
    NaN) the conversion succeeds with a value the language leaves to the
    implementation: [uint_overflow f]. *)
Definition uint_of_float64 (uint_overflow : F64.float64 -> Z) (f : F64.float64) : Z :=
  match float64_to_uint f with
  | Some n => n
  | None => uint_overflow f
  end.

(** [func round(f float64) float64] *)
Definition round (f : F64.float64) : F64.float64 :=
  F64.floor (F64.add f F64.c0_5).

(** The float64 expression of [vtime], before its conversion to [uint]:
    [round(float64(ict)/100.0) * 100]. *)
Definition vtime_float (ict : Z) : F64.float64 :=
  F64.mul (round (F64.div (F64.of_Z ict) F64.c100)) F64.c100.

Definition vtime_of (uint_overflow : F64.float64 -> Z) (ict : Z) : Z :=
  uint_of_float64 uint_overflow (vtime_float ict).

(** ** sys/termios.h *)

Definition kCS5 : Z := 0x00000000.
Definition kCS6 : Z := 0x00000100.
Definition kCS7 : Z := 0x00000200.
Definition kCS8 : Z := 0x00000300.
Definition kCLOCAL : Z := 0x00008000.
Definition kCREAD : Z := 0x00000800.
Definition kCSTOPB : Z := 0x00000400.
Definition kIGNPAR : Z := 0x00000004.
Definition kPARENB : Z := 0x00001000.
Definition kPARODD : Z := 0x00002000.

Definition kNCCS : nat := 20.

Definition kVMIN : Z := tcflag_t 16.
Definition kVTIME : Z := tcflag_t 17.

(** sys/ttycom.h *)
Definition kTIOCGETA : Z := 1078490131.
Definition kTIOCSETA : Z := 2152231956.

Record termios : Type := mk_termios {
  c_iflag : Z;
  c_oflag : Z;
  c_cflag : Z;
  c_lflag : Z;
  c_cc : list Z;
  c_ispeed : Z;
  c_ospeed : Z
}.

(** [var result termios]: every field is zero. *)
Definition termios_zero : termios :=
  mk_termios 0 0 0 0 (replicate kNCCS 0) 0 0.

Definition or_c_cflag (t : termios) (flag : Z) : termios :=
  mk_termios (c_iflag t) (c_oflag t) (Z.lor (c_cflag t) flag) (c_lflag t)
             (c_cc t) (c_ispeed t) (c_ospeed t).

(** [t.c_cc[i] = v]; the indices of the source are constants below [kNCCS]. *)
Definition set_c_cc (t : termios) (i : Z) (v : Z) : termios :=
  mk_termios (c_iflag t) (c_oflag t) (c_cflag t) (c_lflag t)
             (<[Z.to_nat i := v]> (c_cc t)) (c_ispeed t) (c_ospeed t).

Definition set_c_ispeed (t : termios) (v : Z) : termios :=
  mk_termios (c_iflag t) (c_oflag t) (c_cflag t) (c_lflag t)
             (c_cc t) v (c_ospeed t).

Definition set_c_ospeed (t : termios) (v : Z) : termios :=
  mk_termios (c_iflag t) (c_oflag t) (c_cflag t) (c_lflag t)
             (c_cc t) (c_ispeed t) v.

(** ** Options and errors *)

(** Modelled from the spec: the declaration of [ParityMode] (an integer type
    with the three named constants) is in a file that is not part of the
    sources at hand.  [PARITY_other v] stands for a value of the type that is
    none of the three constants. *)
Inductive ParityMode : Type :=
  | PARITY_NONE
  | PARITY_ODD
  | PARITY_EVEN
  | PARITY_other (v : Z).

(** Modelled from the spec: the declaration of [OpenOptions] is in a file that
    is not part of the sources at hand.  The numeric fields are [uint]s.  The
    field [ParityMode] is [ParityMode_of] here, the name being taken by its
    type. *)
Record OpenOptions : Type := mk_OpenOptions {
  PortName : string;
  BaudRate : Z;
  DataBits : Z;
  StopBits : Z;
  ParityMode_of : ParityMode;
  InterCharacterTimeout : Z;
  MinimumReadSize : Z
}.

Inductive error : Type :=
  | errors_New (msg : string)
  | SyscallError (syscall : string) (errno : Z)
  | PathError (op path : string) (errno : Z).

(** A Go result pair [(v, err)] of which one side is nil. *)
Inductive result (A : Type) : Type :=
  | Ok (a : A)
  | Err (e : error).
Arguments Ok {A} a.
Arguments Err {A} e.

Definition is_Ok {A} (r : result A) : bool :=
  match r with Ok _ => true | Err _ => false end.

(** [os.NewSyscallError(name, errno)]: nil when [errno] is zero. *)
Definition os_NewSyscallError (name : string) (errno : Z) : option error :=
  if errno =? 0 then None else Some (SyscallError name errno).

(** The messages of [convertOptions]. *)
Definition msg_timing : string :=
  "Invalid values for InterCharacterTimeout and MinimumReadSize.".
Definition msg_timeout : string := "Invalid value for InterCharacterTimeout.".
Definition msg_baud : string := "Invalid setting for BaudRate.".
Definition msg_data_bits : string := "Invalid setting for DataBits.".
Definition msg_stop_bits : string := "Invalid setting for StopBits.".
Definition msg_parity : string := "Invalid setting for ParityMode.".

(** Early [return nil, err]: the rest of the function runs on [Ok] only. *)
Definition result_bind {A B} (r : result A) (k : A -> result B) : result B :=
  match r with
  | Ok a => k a
  | Err e => Err e
  end.

Notation "x <- c ;; k" := (result_bind c (fun x => k))
  (at level 100, c at next level, right associativity).

(** ** convertOptions *)

Section Convert.

(** What [uint(f)] yields on this implementation when [f] is out of range. *)
Variable uint_overflow : F64.float64 -> Z.

Definition convertOptions (options : OpenOptions) : result termios :=
  let result := termios_zero in
  let result := or_c_cflag result kCLOCAL in
  let result := or_c_cflag result kCREAD in
  let vtime := vtime_of uint_overflow (InterCharacterTimeout options) in
  let vmin := MinimumReadSize options in
  if (vmin =? 0) && (vtime <? 100) then Err (errors_New msg_timing) else
  if 25500 <? vtime then Err (errors_New msg_timeout) else
  let result := set_c_cc result kVTIME (cc_t (vtime / 100)) in
  let result := set_c_cc result kVMIN (cc_t vmin) in
  _ <- match BaudRate options with
       | 50 | 75 | 110 | 134 | 150 | 200 | 300 | 600 | 1200 | 1800 | 2400
       | 4800 | 7200 | 9600 | 14400 | 19200 | 28800 | 38400 | 57600
       | 76800 | 115200 | 230400 => Ok tt
       | _ => Err (errors_New msg_baud)
       end ;;
  let result := set_c_ispeed result (speed_t (BaudRate options)) in
  let result := set_c_ospeed result (speed_t (BaudRate options)) in
  result <- match DataBits options with
            | 5 => Ok (or_c_cflag result kCS5)
            | 6 => Ok (or_c_cflag result kCS6)
            | 7 => Ok (or_c_cflag result kCS7)
            | 8 => Ok (or_c_cflag result kCS8)
            | _ => Err (errors_New msg_data_bits)
            end ;;
  result <- match StopBits options with
            | 1 => Ok result
            | 2 => Ok (or_c_cflag result kCSTOPB)
            | _ => Err (errors_New msg_stop_bits)
            end ;;
  match ParityMode_of options with
  | PARITY_NONE => Ok result
  | PARITY_ODD =>
      let result := or_c_cflag result kPARENB in
      let result := or_c_cflag result kPARODD in
      Ok result
  | PARITY_EVEN => Ok (or_c_cflag result kPARENB)
  | PARITY_other _ => Err (errors_New msg_parity)
  end.

End Convert.

(** ** The operating system *)

Inductive open_flag : Type := O_RDWR | O_NOCTTY | O_NONBLOCK.

(** The system calls of this file, with their arguments and the answer of
    the kernel: a descriptor or an error for [open], the pair [(r1, errno)]
    for [fcntl] and [ioctl]. *)
Inductive syscall : Type :=
  | SysOpen (path : string) (flags : list open_flag) (perm : Z) (ret : result Z)
  | SysFcntlSetfl (fd : Z) (arg : Z) (ret : Z * Z)
  | SysIoctl (fd : Z) (request : Z) (arg : termios) (ret : Z * Z)
  | SysClose (fd : Z).

(** The kernel, as far as this file sees it: its answers. *)
Record kernel : Type := mk_kernel {
  k_open : string -> list open_flag -> Z -> result Z;
  k_fcntl : Z -> Z -> Z * Z;
  k_ioctl : Z -> Z -> termios -> Z * Z
}.

(** A computation that makes system calls: it extends the trace of the calls
    made so far. *)
Definition IO (A : Type) : Type := list syscall -> A * list syscall.

Definition io_ret {A} (a : A) : IO A := fun tr => (a, tr).

Definition io_bind {A B} (c : IO A) (k : A -> IO B) : IO B :=
  fun tr => let '(a, tr') := c tr in k a tr'.

(** A system call: the kernel answers, and the call is logged. *)
Definition io_call {A} (ev : A -> syscall) (answer : A) : IO A :=
  fun tr => (answer, tr ++ [ev answer]).

Notation "x <~ c ;; k" := (io_bind c (fun x => k))
  (at level 100, c at next level, right associativity).

(** The permission bits [0600] (octal). *)
Definition perm_0600 : Z := 6 * 8 * 8.

(** [*os.File]: the descriptor is all that matters here. *)
Record File : Type := mk_File { Fd : Z }.

Section Activate.

Variable uint_overflow : F64.float64 -> Z.
Variable K : kernel.

Definition os_OpenFile (name : string) (flags : list open_flag) (perm : Z)
  : IO (result File) :=
  r <~ io_call (SysOpen name flags perm) (k_open K name flags perm) ;;
  io_ret (fd <- r ;; Ok (mk_File fd)).

(** [func setTermios(fd int, src *termios) error] *)
Definition setTermios (fd : Z) (src : termios) : IO (option error) :=
  r <~ io_call (SysIoctl fd kTIOCSETA src) (k_ioctl K fd kTIOCSETA src) ;;
  let '(r1, errno) := r in
  match os_NewSyscallError "SYS_IOCTL" errno with
  | Some err => io_ret (Some err)
  | None =>
      if negb (r1 =? 0)
      then io_ret (Some (errors_New "Unknown error from SYS_IOCTL."))
      else io_ret None
  end.

(** [func openInternal(options OpenOptions) (io.ReadWriteCloser, error)] *)
Definition openInternal (options : OpenOptions) : IO (result File) :=
  r <~ os_OpenFile (PortName options) [O_RDWR; O_NOCTTY; O_NONBLOCK] perm_0600 ;;
  match r with
  | Err err => io_ret (Err err)
  | Ok file =>
      r <~ io_call (SysFcntlSetfl (Fd file) 0) (k_fcntl K (Fd file) 0) ;;
      let '(r1, errno) := r in
      match os_NewSyscallError "SYS_IOCTL" errno with
      | Some err => io_ret (Err err)
      | None =>
          if negb (r1 =? 0)
          then io_ret (Err (errors_New "Unknown error from SYS_FCNTL."))
          else
            match convertOptions uint_overflow options with
            | Err err => io_ret (Err err)
            | Ok terminalOptions =>
                err <~ setTermios (Fd file) terminalOptions ;;
                match err with
                | Some err => io_ret (Err err)
                | None => io_ret (Ok file)
                end
            end
      end
  end.

End Activate.

(** What a trace says about descriptors. *)

Definition track (open : gset Z) (ev : syscall) : gset Z :=
  match ev with
  | SysOpen _ _ _ (Ok fd) => open ∪ {[fd]}
  | SysClose fd => open ∖ {[fd]}
  | _ => open
  end.

(** The descriptors a trace leaves open. *)
Definition open_descriptors (tr : list syscall) : gset Z := foldl track ∅ tr.

Definition is_close_of (fd : Z) (ev : syscall) : bool :=
  match ev with
  | SysClose fd' => fd' =? fd
  | _ => false
  end.

(** The number of times [fd] is closed in a trace. *)
Definition closes_of (fd : Z) (tr : list syscall) : nat :=
  length (filter (fun ev => is_close_of fd ev = true) tr).

(** ** The vocabulary of the properties *)

(** The nearest multiple of 100, a half rounded up, in integer arithmetic. *)
Definition nearest_100 (x : Z) : Z := 100 * ((x + 50) / 100).

(** The timing check of the specification, on the rounded timeout. *)
Definition timing_accepted (o : OpenOptions) : Prop :=
  0 <= InterCharacterTimeout o /\
  nearest_100 (InterCharacterTimeout o) <= 25500 /\
  (MinimumReadSize o = 0 -> 100 <= nearest_100 (InterCharacterTimeout o)).

(** The fixed set of baud rates. *)
Definition baud_rates : list Z :=
  [50; 75; 110; 134; 150; 200; 300; 600; 1200; 1800; 2400; 4800; 7200; 9600;
   14400; 19200; 28800; 38400; 57600; 76800; 115200; 230400].

Definition valid_baud_rate (o : OpenOptions) : Prop := In (BaudRate o) baud_rates.
Definition valid_data_bits (o : OpenOptions) : Prop := In (DataBits o) [5; 6; 7; 8].
Definition valid_stop_bits (o : OpenOptions) : Prop := In (StopBits o) [1; 2].
Definition valid_parity (o : OpenOptions) : Prop :=
  In (ParityMode_of o) [PARITY_NONE; PARITY_ODD; PARITY_EVEN].

(** A flag (a set of bits) of a flags word. *)
Definition flag_set (w flag : Z) : Prop := Z.land w flag = flag.
Definition flag_clear (w flag : Z) : Prop := Z.land w flag = 0.

(** The character-size field of a control-flags word; [kCS8] has both of its
    bits. *)
Definition char_size (w : Z) : Z := Z.land w kCS8.

(** A float that is positive, infinity included. *)
Definition is_positive (f : F64.float64) : bool :=
  match f with
  | S754_infinity false | S754_finite false _ _ => true
  | _ => false
  end.

(** An implementation whose [uint(f)] exceeds 25500 when [f] is too large
    for a [uint]. *)
Definition overflow_is_large (uint_overflow : F64.float64 -> Z) : Prop :=
  forall f, is_positive f = true -> float64_to_uint f = None ->
    25500 < uint_overflow f.

(** An implementation that saturates: the largest [uint] for a float that is
    too large, zero for a negative one and for NaN. *)
Definition uint_overflow_sat (f : F64.float64) : Z :=
  if is_positive f then 2 ^ uint_bits - 1 else 0.

(** The 8N1 options at 9600 baud with the given timing fields. *)
Definition options_8N1 (ict vmin : Z) : OpenOptions :=
  mk_OpenOptions "/dev/cu.usbserial" 9600 8 1 PARITY_NONE ict vmin.

(** A kernel that opens the device as descriptor 3 and then refuses the
    [fcntl] call with [EBADF]. *)
Definition kernel_fcntl_fails : kernel :=
  mk_kernel (fun _ _ _ => Ok 3) (fun _ _ => (2 ^ 64 - 1, 9)) (fun _ _ _ => (0, 0)).

(** A kernel that opens the device as descriptor 3 and refuses the [ioctl]
    call with [ENOTTY]. *)
Definition kernel_ioctl_fails : kernel :=
  mk_kernel (fun _ _ _ => Ok 3) (fun _ _ => (0, 0)) (fun _ _ _ => (2 ^ 64 - 1, 25)).

(** ** Definitions the proofs go through *)

(** [at_least k f]: [f] is positive, possibly infinite, and [2^k <= f]. *)
Definition at_least (k : Z) (f : F64.float64) : Prop :=
  match f with
  | S754_infinity false => True
  | S754_finite false m e => k <= Z.log2 (Z.pos m) + e
  | _ => False
  end.

(** [below k f]: [f] is zero or positive and finite, and [f < 2^k]. *)
Definition below (k : Z) (f : F64.float64) : Prop :=
  match f with
  | S754_zero _ => True
  | S754_finite false m e => Z.log2 (Z.pos m) + e < k
  | _ => False
  end.

(** The float64 computation of [vtime] at [k] is in range and agrees with
    [nearest_100]; [vtime_exact_from n k] checks the [n] integers from [k]. *)
Definition vtime_exact_at (k : Z) : bool :=
  match float64_to_uint (vtime_float k) with
  | Some v => v =? nearest_100 k
  | None => false
  end.

Fixpoint vtime_exact_from (n : nat) (k : Z) : bool :=
  match n with
  | O => true
  | S n' => vtime_exact_at k && vtime_exact_from n' (k + 1)
  end.

(** The switches of [convertOptions] as tables: membership in the set of
    baud rates, and the flags each option value contributes. *)
Definition baud_rate_ok (b : Z) : bool := existsb (Z.eqb b) baud_rates.

Definition data_bits_flag (d : Z) : option Z :=
  if d =? 5 then Some kCS5 else
  if d =? 6 then Some kCS6 else
  if d =? 7 then Some kCS7 else
  if d =? 8 then Some kCS8 else None.

Definition stop_bits_flag (s : Z) : option Z :=
  if s =? 1 then Some 0 else if s =? 2 then Some kCSTOPB else None.

Definition parity_flags (p : ParityMode) : option Z :=
  match p with
  | PARITY_NONE => Some 0
  | PARITY_ODD => Some (Z.lor kPARENB kPARODD)
  | PARITY_EVEN => Some kPARENB
  | PARITY_other _ => None
  end.

(** The structure [convertOptions] returns when every check passes. *)
Definition assemble (vtime vmin baud cs sb pf : Z) : termios :=
  mk_termios 0 0
    (Z.lor (Z.lor (Z.lor (Z.lor kCLOCAL kCREAD) cs) sb) pf)
    0
    (<[16%nat := cc_t vmin]> (<[17%nat := cc_t (vtime / 100)]> (replicate 20 0)))
    (speed_t baud) (speed_t baud).

(** ** Further vocabulary *)

(** The four steps of [openInternal] all going well, with descriptor [fd] and
    converted structure [t]. *)
Definition activation_succeeds (uint_overflow : F64.float64 -> Z) (K : kernel)
    (o : OpenOptions) (fd : Z) (t : termios) : Prop :=
  k_open K (PortName o) [O_RDWR; O_NOCTTY; O_NONBLOCK] perm_0600 = Ok fd /\
  k_fcntl K fd 0 = (0, 0) /\
  convertOptions uint_overflow o = Ok t /\
  k_ioctl K fd kTIOCSETA t = (0, 0).

(** A kernel that opens the device as descriptor 3 and accepts every call. *)
Definition kernel_accepts : kernel :=
  mk_kernel (fun _ _ _ => Ok 3) (fun _ _ => (0, 0)) (fun _ _ _ => (0, 0)).

(** A kernel that has no such device: [open] fails with [ENOENT]. *)
Definition kernel_no_device : kernel :=
  mk_kernel (fun path _ _ => Err (PathError "open" path 2))
            (fun _ _ => (0, 0)) (fun _ _ _ => (0, 0)).

(** * Properties *)

(** ** Binary logarithm of mantissas *)

Lemma digits2_pos_size (p : positive) : digits2_pos p = Pos.size p.
Proof. induction p; simpl; congruence. Qed.

Lemma Zdigits2_log2 (p : positive) : Zdigits2 (Z.pos p) = Z.log2 (Z.pos p) + 1.
Proof.
  simpl. rewrite digits2_pos_size.
  destruct p; simpl; lia.
Qed.

Lemma shr_1_m (mrs : shr_record) :
  0 <= shr_m mrs -> shr_m (shr_1 mrs) = Z.shiftr (shr_m mrs) 1.
Proof.
  destruct mrs as [m r s]; simpl; intros Hm.
  destruct m as [|[p|p|]|p]; try lia; reflexivity.
Qed.

Lemma iter_pos_shr_1_m (p : positive) :
  forall mrs, 0 <= shr_m mrs ->
    shr_m (SpecFloat.iter_pos shr_1 p mrs) = Z.shiftr (shr_m mrs) (Z.pos p).
Proof.
  induction p as [p IH|p IH|]; intros mrs Hm; simpl.
  - assert (H1 : 0 <= shr_m (shr_1 mrs))
      by (rewrite shr_1_m by assumption; apply Z.shiftr_nonneg; assumption).
    assert (H2 : 0 <= shr_m (SpecFloat.iter_pos shr_1 p (shr_1 mrs)))
      by (rewrite IH by assumption; apply Z.shiftr_nonneg; assumption).
    rewrite IH, IH, shr_1_m by assumption.
    rewrite !Z.shiftr_shiftr by lia. f_equal; lia.
  - assert (H2 : 0 <= shr_m (SpecFloat.iter_pos shr_1 p mrs))
      by (rewrite IH by assumption; apply Z.shiftr_nonneg; assumption).
    rewrite IH, IH by assumption.
    rewrite !Z.shiftr_shiftr by lia. f_equal; lia.
  - apply shr_1_m; assumption.
Qed.

Lemma shr_spec (mrs mrs' : shr_record) (e n e' : Z) :
  0 <= shr_m mrs ->
  shr mrs e n = (mrs', e') ->
  shr_m mrs' = Z.shiftr (shr_m mrs) (Z.max 0 n) /\ e' = e + Z.max 0 n.
Proof.
  intros Hm; unfold shr; destruct n as [|p|p]; intros [= <- <-].
  - rewrite Z.shiftr_0_r; lia.
  - rewrite iter_pos_shr_1_m by assumption. split; f_equal; lia.
  - rewrite Z.shiftr_0_r; lia.
Qed.

(** ** Lower bounds through the float64 operations *)

Lemma shiftr_pos_log2 (m n : Z) :
  0 < m -> 0 <= n <= Z.log2 m ->
  0 < Z.shiftr m n /\ Z.log2 (Z.shiftr m n) = Z.log2 m - n.
Proof.
  intros Hm Hn. split.
  - rewrite Z.shiftr_div_pow2 by lia.
    apply Z.div_str_pos. split; [apply Z.pow_pos_nonneg; lia|].
    transitivity (2 ^ Z.log2 m).
    + apply Z.pow_le_mono_r; lia.
    + apply Z.log2_spec; assumption.
  - rewrite Z.log2_shiftr by assumption. lia.
Qed.

Lemma shr_record_of_loc_m (m : Z) (l : location) :
  shr_m (shr_record_of_loc m l) = m.
Proof. destruct l as [|[]]; reflexivity. Qed.

Lemma shr_fexp_spec (m e : Z) (l : location) (mrs' : shr_record) (e' : Z) :
  0 < m -> -1074 <= Z.log2 m + e ->
  shr_fexp F64.prec F64.emax m e l = (mrs', e') ->
  0 < shr_m mrs' /\ Z.log2 (shr_m mrs') + e' = Z.log2 m + e.
Proof.
  intros Hm Hlo H. unfold shr_fexp in H.
  apply shr_spec in H; [|rewrite shr_record_of_loc_m; lia].
  rewrite shr_record_of_loc_m in H. destruct H as [-> ->].
  assert (Hd : Zdigits2 m = Z.log2 m + 1)
    by (destruct m as [|p|p]; try lia; apply Zdigits2_log2).
  rewrite Hd. unfold fexp, emin, F64.prec, F64.emax.
  pose proof (Z.log2_nonneg m) as Hl.
  set (n := Z.max 0 _).
  assert (Hn : 0 <= n <= Z.log2 m) by lia.
  destruct (shiftr_pos_log2 m n Hm Hn) as [H1 H2].
  split; [assumption|]. rewrite H2. lia.
Qed.

Lemma round_nearest_even_ge (m : Z) (l : location) :
  m <= round_nearest_even m l <= m + 1.
Proof.
  destruct l as [|[]]; simpl; try lia.
  destruct (Z.even m); lia.
Qed.

Lemma binary_round_aux_at_least (k mx ex : Z) (lx : location) :
  0 < mx -> -1074 <= k -> k <= Z.log2 mx + ex ->
  at_least k (binary_round_aux F64.prec F64.emax false mx ex lx).
Proof.
  intros Hm Hk HL. unfold binary_round_aux.
  destruct (shr_fexp F64.prec F64.emax mx ex lx) as [mrs1 e1] eqn:E1.
  apply shr_fexp_spec in E1; [|lia..]. destruct E1 as [Hm1 HL1].
  pose proof (round_nearest_even_ge (shr_m mrs1) (loc_of_shr_record mrs1)) as Hr.
  set (m2 := round_nearest_even _ _) in *.
  assert (Hlog : Z.log2 (shr_m mrs1) <= Z.log2 m2) by (apply Z.log2_le_mono; lia).
  destruct (shr_fexp F64.prec F64.emax m2 e1 loc_Exact) as [mrs3 e3] eqn:E3.
  apply shr_fexp_spec in E3; [|lia..]. destruct E3 as [Hm3 HL3].
  destruct (shr_m mrs3) as [|m3|m3]; try lia.
  destruct (e3 <=? F64.emax - F64.prec); cbn [at_least]; [lia|exact I].
Qed.

Lemma shl_align_spec (mx : positive) (ex ex' : Z) (mz : positive) (ez : Z) :
  shl_align mx ex ex' = (mz, ez) ->
  Z.pos mz = Z.shiftl (Z.pos mx) (ex - ez) /\ ez = Z.min ex ex'.
Proof.
  unfold shl_align. destruct (ex' - ex) as [|d|d] eqn:E; intros [= <- <-].
  - rewrite Z.sub_diag. split; [reflexivity|lia].
  - rewrite Z.sub_diag. split; [reflexivity|lia].
  - replace (ex - ex') with (Z.pos d) by lia. split; [|lia].
    apply (Pos.iter_swap_gen _ _ Z.pos xO (Z.mul 2)). reflexivity.
Qed.

Lemma shl_align_log2 (mx : positive) (ex ex' : Z) (mz : positive) (ez : Z) :
  shl_align mx ex ex' = (mz, ez) ->
  Z.log2 (Z.pos mz) + ez = Z.log2 (Z.pos mx) + ex.
Proof.
  intros H. apply shl_align_spec in H. destruct H as [-> ->].
  rewrite Z.log2_shiftl by lia. lia.
Qed.

Lemma binary_normalize_at_least (k n e : Z) :
  0 < n -> -1074 <= k -> k <= Z.log2 n + e ->
  at_least k (binary_normalize F64.prec F64.emax n e false).
Proof.
  intros Hn Hk HL. destruct n as [|p|p]; try lia.
  unfold binary_normalize, binary_round.
  destruct (shl_align p e _) as [mz ez] eqn:E.
  apply shl_align_log2 in E.
  apply binary_round_aux_at_least; lia.
Qed.

Lemma of_Z_at_least (k n : Z) :
  0 <= k -> 2 ^ k <= n -> at_least k (F64.of_Z n).
Proof.
  intros Hk Hn.
  assert (0 < n) by (pose proof (Z.pow_pos_nonneg 2 k); lia).
  apply binary_normalize_at_least; [lia..|].
  rewrite Z.add_0_r. apply Z.log2_le_pow2; assumption.
Qed.

Lemma div_c100_at_least (k : Z) (x : F64.float64) :
  0 <= k -> at_least k x -> at_least (k - 7) (F64.div x F64.c100).
Proof.
  intros Hk Hx. destruct x as [s|[]| |[] mx ex]; try contradiction; [exact I|].
  cbn [at_least] in Hx.
  unfold F64.div, F64.c100, SFdiv.
  destruct (SFdiv_core_binary _ _ _ _ _ _) as [[mz ez] lz] eqn:E.
  unfold SFdiv_core_binary in E.
  rewrite !Zdigits2_log2 in E.
  change (Z.log2 (Z.pos 7036874417766400)) with 52 in E.
  set (e' := Z.min _ _) in E.
  set (s := ex - -46 - e') in E.
  assert (Hs : 0 <= s) by (subst s e'; lia).
  assert (He' : e' <= Z.log2 (Z.pos mx) + ex - 59)
    by (subst e'; unfold fexp, emin, F64.prec, F64.emax; lia).
  set (m' := match s with Z.pos _ => Z.shiftl (Z.pos mx) s | 0 => Z.pos mx | Z.neg _ => 0 end) in E.
  assert (Hm' : m' = Z.pos mx * 2 ^ s).
  { subst m'. destruct s as [|p|p]; try lia.
    apply Z.shiftl_mul_pow2; lia. }
  pose proof (Z.log2_nonneg (Z.pos mx)) as Hl.
  set (a := Z.log2 (Z.pos mx) + s - 53).
  assert (Ha : 0 <= a) by (subst a s; lia).
  assert (Hq : 2 ^ a <= m' / Z.pos 7036874417766400).
  { apply Z.div_le_lower_bound; [lia|].
    transitivity (2 ^ 53 * 2 ^ a).
    - apply Z.mul_le_mono_nonneg_r; [apply Z.pow_nonneg|]; lia.
    - rewrite <- Z.pow_add_r by lia. rewrite Hm'.
      replace (53 + a) with (Z.log2 (Z.pos mx) + s) by (subst a; lia).
      rewrite Z.pow_add_r by lia.
      apply Z.mul_le_mono_nonneg_r; [apply Z.pow_nonneg; lia|].
      apply Z.log2_spec; lia. }
  unfold Z.div in Hq.
  destruct (Z.div_eucl m' _) as [q r]. injection E as <- <- <-.
  cbn [fst] in Hq.
  assert (0 < q) by (pose proof (Z.pow_pos_nonneg 2 a); lia).
  apply binary_round_aux_at_least; [lia..|].
  apply Z.log2_le_pow2 in Hq; [|assumption].
  subst a s. lia.
Qed.

Lemma add_c0_5_at_least (k : Z) (x : F64.float64) :
  -1074 <= k -> at_least k x -> at_least k (F64.add x F64.c0_5).
Proof.
  intros Hk Hx. destruct x as [s|[]| |[] mx ex]; try contradiction; [exact I|].
  cbn [at_least] in Hx.
  unfold F64.add, F64.c0_5, SFadd.
  set (ez := Z.min ex (-53)).
  destruct (shl_align mx ex ez) as [a ea] eqn:Ea.
  destruct (shl_align _ (-53) ez) as [b eb] eqn:Eb.
  cbn [fst cond_Zopp].
  pose proof (shl_align_log2 _ _ _ _ _ Ea) as HL.
  apply shl_align_spec in Ea. destruct Ea as [_ Hea].
  assert (Hab : Z.log2 (Z.pos a) <= Z.log2 (Z.pos a + Z.pos b))
    by (apply Z.log2_le_mono; lia).
  apply binary_normalize_at_least; lia.
Qed.

Lemma shiftl_pos_log2 (m : positive) (e : Z) :
  0 <= Z.log2 (Z.pos m) + e ->
  0 < Z.shiftl (Z.pos m) e /\
  Z.log2 (Z.shiftl (Z.pos m) e) = Z.log2 (Z.pos m) + e.
Proof.
  intros HL. destruct (Z.le_gt_cases 0 e) as [He|He].
  - rewrite Z.log2_shiftl by lia. split; [|reflexivity].
    rewrite Z.shiftl_mul_pow2 by assumption.
    apply Z.mul_pos_pos; [lia|apply Z.pow_pos_nonneg; lia].
  - rewrite <- (Z.opp_involutive e), Z.shiftl_opp_r.
    destruct (shiftr_pos_log2 (Z.pos m) (- e)) as [H1 H2]; lia.
Qed.

Lemma floor_at_least (k : Z) (x : F64.float64) :
  0 <= k -> at_least k x -> at_least k (F64.floor x).
Proof.
  intros Hk Hx. destruct x as [s|[]| |[] m e]; try contradiction; [exact I|].
  cbn [at_least] in Hx. unfold F64.floor.
  destruct (0 <=? e); [exact Hx|].
  unfold F64.floorZ, cond_Zopp.
  destruct (shiftl_pos_log2 m e) as [H1 H2]; [lia|].
  apply binary_normalize_at_least; lia.
Qed.

Lemma mul_c100_at_least (k : Z) (x : F64.float64) :
  -1074 <= k -> at_least k x -> at_least (k + 6) (F64.mul x F64.c100).
Proof.
  intros Hk Hx. destruct x as [s|[]| |[] mx ex]; try contradiction; [exact I|].
  cbn [at_least] in Hx.
  unfold F64.mul, F64.c100, SFmul. cbn [xorb].
  apply binary_round_aux_at_least; [lia..|].
  rewrite Pos2Z.inj_mul.
  pose proof (Z.log2_mul_below (Z.pos mx) (Z.pos 7036874417766400)) as Hm.
  change (Z.log2 (Z.pos 7036874417766400)) with 52 in Hm. lia.
Qed.

Lemma float64_to_uint_at_least (k : Z) (f : F64.float64) :
  0 <= k -> at_least k f ->
  match float64_to_uint f with
  | Some n => 2 ^ k <= n
  | None => True
  end.
Proof.
  intros Hk Hf. destruct f as [s|[]| |[] m e]; try contradiction; [exact I|].
  cbn [at_least] in Hf. unfold float64_to_uint, F64.truncZ, cond_Zopp.
  destruct (_ && _); [|exact I].
  destruct (shiftl_pos_log2 m e) as [H1 H2]; [lia|].
  apply Z.log2_le_pow2; lia.
Qed.

(** From 65536 on, [vtime] exceeds 25500 whenever its conversion to [uint]
    is in range. *)
Lemma vtime_float_large (ict : Z) :
  2 ^ 16 <= ict -> at_least 15 (vtime_float ict).
Proof.
  intros H. unfold vtime_float, round.
  apply (mul_c100_at_least 9); [lia|].
  apply floor_at_least; [lia|].
  apply add_c0_5_at_least; [lia|].
  apply (div_c100_at_least 16); [lia|].
  apply of_Z_at_least; [lia|assumption].
Qed.

Lemma at_least_is_positive (k : Z) (f : F64.float64) :
  at_least k f -> is_positive f = true.
Proof. destruct f as [s|[]| |[] m e]; try contradiction; reflexivity. Qed.

Lemma vtime_of_large (uint_overflow : F64.float64 -> Z) (ict : Z) :
  overflow_is_large uint_overflow ->
  2 ^ 16 <= ict -> 25500 < vtime_of uint_overflow ict.
Proof.
  intros Hovf H. unfold vtime_of, uint_of_float64.
  pose proof (vtime_float_large ict H) as Hf.
  pose proof (float64_to_uint_at_least 15 _ ltac:(lia) Hf) as Hn.
  destruct (float64_to_uint _) eqn:E.
  - change (2 ^ 15) with 32768 in Hn. lia.
  - apply Hovf; [eapply at_least_is_positive; eassumption|assumption].
Qed.

(** ** Upper bounds through the float64 operations *)

Lemma log2_succ_le (m : Z) : 0 < m -> Z.log2 (m + 1) <= Z.log2 m + 1.
Proof.
  intros Hm. transitivity (Z.log2 (2 * m)).
  - apply Z.log2_le_mono. lia.
  - rewrite Z.log2_double by assumption. lia.
Qed.

Lemma binary_round_aux_below (k mx ex : Z) (lx : location) :
  0 < mx -> -1074 <= Z.log2 mx + ex -> Z.log2 mx + ex < k -> k <= 971 ->
  below (k + 1) (binary_round_aux F64.prec F64.emax false mx ex lx).
Proof.
  intros Hm Hlo HL Hk. unfold binary_round_aux.
  destruct (shr_fexp F64.prec F64.emax mx ex lx) as [mrs1 e1] eqn:E1.
  apply shr_fexp_spec in E1; [|lia..]. destruct E1 as [Hm1 HL1].
  pose proof (round_nearest_even_ge (shr_m mrs1) (loc_of_shr_record mrs1)) as Hr.
  set (m2 := round_nearest_even _ _) in *.
  assert (Hlog : Z.log2 (shr_m mrs1) <= Z.log2 m2) by (apply Z.log2_le_mono; lia).
  assert (Hlog' : Z.log2 m2 <= Z.log2 (shr_m mrs1) + 1).
  { etransitivity; [|apply log2_succ_le; assumption]. apply Z.log2_le_mono; lia. }
  destruct (shr_fexp F64.prec F64.emax m2 e1 loc_Exact) as [mrs3 e3] eqn:E3.
  apply shr_fexp_spec in E3; [|lia..]. destruct E3 as [Hm3 HL3].
  pose proof (Z.log2_nonneg (shr_m mrs3)) as Hnn.
  destruct (shr_m mrs3) as [|m3|m3]; try lia.
  replace (e3 <=? F64.emax - F64.prec) with true
    by (symmetry; apply Z.leb_le; unfold F64.emax, F64.prec; lia).
  cbn [below]. lia.
Qed.

Lemma binary_normalize_below (k n e : Z) :
  0 < n -> -1074 <= Z.log2 n + e -> Z.log2 n + e < k -> k <= 971 ->
  below (k + 1) (binary_normalize F64.prec F64.emax n e false).
Proof.
  intros Hn Hlo HL Hk. destruct n as [|p|p]; try lia.
  unfold binary_normalize, binary_round.
  destruct (shl_align p e _) as [mz ez] eqn:E.
  apply shl_align_log2 in E.
  apply binary_round_aux_below; lia.
Qed.

Lemma of_Z_below (k n : Z) :
  0 < n < 2 ^ k -> 0 <= k <= 971 -> below (k + 1) (F64.of_Z n).
Proof.
  intros Hn Hk. pose proof (Z.log2_nonneg n).
  apply binary_normalize_below; [lia..| |lia].
  rewrite Z.add_0_r. apply Z.log2_lt_pow2; lia.
Qed.

Lemma div_c100_below (k : Z) (x : F64.float64) :
  at_least 0 x -> below k x -> k <= 971 -> below (k - 5) (F64.div x F64.c100).
Proof.
  intros Hx Hb Hk. destruct x as [s|[]| |[] mx ex]; try contradiction.
  cbn [at_least below] in Hx, Hb.
  unfold F64.div, F64.c100, SFdiv.
  destruct (SFdiv_core_binary _ _ _ _ _ _) as [[mz ez] lz] eqn:E.
  unfold SFdiv_core_binary in E.
  rewrite !Zdigits2_log2 in E.
  change (Z.log2 (Z.pos 7036874417766400)) with 52 in E.
  set (e' := Z.min _ _) in E.
  set (s := ex - -46 - e') in E.
  assert (Hs : 0 <= s) by (subst s e'; lia).
  assert (He' : e' <= Z.log2 (Z.pos mx) + ex - 59)
    by (subst e'; unfold fexp, emin, F64.prec, F64.emax; lia).
  set (m' := match s with Z.pos _ => Z.shiftl (Z.pos mx) s | 0 => Z.pos mx | Z.neg _ => 0 end) in E.
  assert (Hm' : m' = Z.shiftl (Z.pos mx) s).
  { subst m'. destruct s as [|p|p]; try lia; reflexivity. }
  pose proof (Z.log2_nonneg (Z.pos mx)) as Hl.
  assert (Hlm : Z.log2 m' = Z.log2 (Z.pos mx) + s)
    by (rewrite Hm'; apply Z.log2_shiftl; lia).
  assert (Hmpos : 2 ^ 105 <= m').
  { apply Z.log2_le_pow2.
    - rewrite Hm', Z.shiftl_mul_pow2 by lia.
      apply Z.mul_pos_pos; [lia|apply Z.pow_pos_nonneg; lia].
    - subst s. lia. }
  assert (Hm'pos : 0 < m') by (pose proof (Z.pow_pos_nonneg 2 105); lia).
  assert (Hq1 : 2 ^ (Z.log2 m' - 53) <= m' / Z.pos 7036874417766400).
  { apply Z.div_le_lower_bound; [lia|].
    transitivity (2 ^ 53 * 2 ^ (Z.log2 m' - 53)).
    - apply Z.mul_le_mono_nonneg_r; [apply Z.pow_nonneg|]; lia.
    - rewrite <- Z.pow_add_r by (subst s; lia).
      replace (53 + (Z.log2 m' - 53)) with (Z.log2 m') by lia.
      apply Z.log2_spec. assumption. }
  assert (Hq2 : m' / Z.pos 7036874417766400 <= m' / 2 ^ 52).
  { apply Z.div_le_compat_l; [|lia].
    pose proof (Z.pow_pos_nonneg 2 105); lia. }
  assert (Hq3 : Z.log2 (m' / Z.pos 7036874417766400) <= Z.log2 m' - 52).
  { etransitivity; [apply Z.log2_le_mono; exact Hq2|].
    rewrite <- Z.shiftr_div_pow2, Z.log2_shiftr by (pose proof (Z.pow_pos_nonneg 2 105); lia).
    lia. }
  unfold Z.div in Hq1, Hq3.
  destruct (Z.div_eucl m' _) as [q r]. injection E as <- <- <-.
  cbn [fst] in Hq1, Hq3.
  assert (0 < q)
    by (pose proof (Z.pow_pos_nonneg 2 (Z.log2 m' - 53)); subst s; lia).
  assert (Hlq : Z.log2 m' - 53 <= Z.log2 q) by (apply Z.log2_le_pow2; assumption).
  replace (k - 5) with ((k - 6) + 1) by lia.
  apply binary_round_aux_below; subst s; lia.
Qed.

Lemma log2_add_le (a b M : Z) :
  0 < a -> 0 < b -> Z.log2 a <= M -> Z.log2 b <= M -> Z.log2 (a + b) <= M + 1.
Proof.
  intros Ha Hb HMa HMb.
  assert (HM0 : 0 <= M) by (pose proof (Z.log2_nonneg a); lia).
  assert (HM : forall x, 0 < x -> Z.log2 x <= M -> x < 2 ^ (M + 1)).
  { intros x Hx Hl. apply Z.log2_lt_pow2; lia. }
  apply HM in HMa; [|assumption]. apply HM in HMb; [|assumption].
  assert (Hab : a + b < 2 ^ (M + 2)).
  { replace (M + 2) with (Z.succ (M + 1)) by lia.
    rewrite Z.pow_succ_r by lia. lia. }
  apply Z.log2_lt_pow2 in Hab; lia.
Qed.

Lemma add_c0_5_below (k : Z) (x : F64.float64) :
  at_least 0 x -> below k x -> k <= 970 -> below (k + 2) (F64.add x F64.c0_5).
Proof.
  intros Hx Hb Hk. destruct x as [s|[]| |[] mx ex]; try contradiction.
  cbn [at_least below] in Hx, Hb.
  unfold F64.add, F64.c0_5, SFadd.
  set (ez := Z.min ex (-53)).
  destruct (shl_align mx ex ez) as [a ea] eqn:Ea.
  destruct (shl_align _ (-53) ez) as [b eb] eqn:Eb.
  cbn [fst cond_Zopp].
  pose proof (shl_align_log2 _ _ _ _ _ Ea) as HLa.
  pose proof (shl_align_log2 _ _ _ _ _ Eb) as HLb.
  change (Z.log2 (Z.pos 4503599627370496)) with 52 in HLb.
  apply shl_align_spec in Ea. destruct Ea as [_ Hea].
  apply shl_align_spec in Eb. destruct Eb as [_ Heb].
  assert (Hlo : Z.log2 (Z.pos a) <= Z.log2 (Z.pos a + Z.pos b))
    by (apply Z.log2_le_mono; lia).
  assert (Hhi : Z.log2 (Z.pos a + Z.pos b) <= Z.log2 (Z.pos a) + 1)
    by (apply log2_add_le; lia).
  replace (k + 2) with ((k + 1) + 1) by lia.
  apply binary_normalize_below; lia.
Qed.

Lemma floor_below (k : Z) (x : F64.float64) :
  at_least 0 x -> below k x -> k <= 971 -> below (k + 1) (F64.floor x).
Proof.
  intros Hx Hb Hk. destruct x as [s|[]| |[] m e]; try contradiction.
  cbn [at_least below] in Hx, Hb. unfold F64.floor.
  destruct (0 <=? e); [cbn [below]; lia|].
  unfold F64.floorZ, cond_Zopp.
  destruct (shiftl_pos_log2 m e) as [H1 H2]; [lia|].
  apply binary_normalize_below; lia.
Qed.

Lemma mul_c100_below (k : Z) (x : F64.float64) :
  at_least 0 x -> below k x -> k <= 964 -> below (k + 8) (F64.mul x F64.c100).
Proof.
  intros Hx Hb Hk. destruct x as [s|[]| |[] mx ex]; try contradiction.
  cbn [at_least below] in Hx, Hb.
  unfold F64.mul, F64.c100, SFmul. cbn [xorb].
  rewrite Pos2Z.inj_mul.
  pose proof (Z.log2_mul_below (Z.pos mx) (Z.pos 7036874417766400)) as Hlo.
  pose proof (Z.log2_mul_above (Z.pos mx) (Z.pos 7036874417766400)) as Hhi.
  change (Z.log2 (Z.pos 7036874417766400)) with 52 in Hlo, Hhi.
  replace (k + 8) with ((k + 7) + 1) by lia.
  apply binary_round_aux_below; lia.
Qed.

Lemma float64_to_uint_below (f : F64.float64) :
  below 64 f -> exists n, float64_to_uint f = Some n.
Proof.
  intros Hf. destruct f as [s|s| |[] m e]; try contradiction.
  - exists 0. reflexivity.
  - cbn [below] in Hf. unfold float64_to_uint, F64.truncZ, cond_Zopp.
    assert (Hn : 0 <= Z.shiftl (Z.pos m) e < 2 ^ 64).
    { split; [apply Z.shiftl_nonneg; lia|].
      destruct (Z.lt_ge_cases (Z.log2 (Z.pos m) + e) 0) as [Hneg|Hpos].
      - rewrite <- (Z.opp_involutive e), Z.shiftl_opp_r, Z.shiftr_eq_0 by lia.
        reflexivity.
      - destruct (shiftl_pos_log2 m e Hpos) as [H1 H2].
        apply Z.log2_lt_pow2; lia. }
    eexists.
    replace (_ && _) with true; [reflexivity|].
    symmetry. apply andb_true_iff. rewrite Z.leb_le, Z.ltb_lt. exact Hn.
Qed.

(** Below [2^57] the float64 product stays within the range of [uint]. *)
Lemma vtime_float_below (ict : Z) :
  2 ^ 16 <= ict < 2 ^ 57 -> below 64 (vtime_float ict).
Proof.
  intros H. unfold vtime_float, round.
  assert (H0 : at_least 16 (F64.of_Z ict)) by (apply of_Z_at_least; lia).
  assert (H1 : at_least 9 (F64.div (F64.of_Z ict) F64.c100))
    by (apply (div_c100_at_least 16); [lia|assumption]).
  assert (H2 : at_least 9 (F64.add (F64.div (F64.of_Z ict) F64.c100) F64.c0_5))
    by (apply add_c0_5_at_least; [lia|assumption]).
  assert (H3 : at_least 9 (F64.floor (F64.add (F64.div (F64.of_Z ict) F64.c100) F64.c0_5)))
    by (apply floor_at_least; [lia|assumption]).
  assert (Hweak : forall k f, 0 <= k -> at_least k f -> at_least 0 f).
  { intros k f Hk Hf. destruct f as [s|[]| |[] m e]; try contradiction;
      [exact I|cbn [at_least] in *; lia]. }
  apply (mul_c100_below 56); [eapply (Hweak 9); [lia|eassumption]| |lia].
  apply (floor_below 55); [eapply (Hweak 9); [lia|eassumption]| |lia].
  apply (add_c0_5_below 53); [eapply (Hweak 9); [lia|eassumption]| |lia].
  apply (div_c100_below 58); [eapply (Hweak 16); [lia|eassumption]| |lia].
  apply (of_Z_below 57); [|lia].
  pose proof (Z.pow_pos_nonneg 2 16). lia.
Qed.

Lemma vtime_of_large_in_range (uint_overflow : F64.float64 -> Z) (ict : Z) :
  2 ^ 16 <= ict < 2 ^ 57 -> 25500 < vtime_of uint_overflow ict.
Proof.
  intros H. unfold vtime_of, uint_of_float64.
  pose proof (float64_to_uint_at_least 15 _ ltac:(lia)
                (vtime_float_large ict ltac:(lia))) as Hn.
  destruct (float64_to_uint_below _ (vtime_float_below ict H)) as [n E].
  rewrite E in *. change (2 ^ 15) with 32768 in Hn. lia.
Qed.

(** ** Exact rounding below 65536 *)

Lemma nearest_100_spec (x : Z) :
  nearest_100 x mod 100 = 0 /\ nearest_100 x - 50 <= x < nearest_100 x + 50.
Proof.
  unfold nearest_100. split.
  - rewrite Z.mul_comm. apply Z.mod_mul. lia.
  - pose proof (Z.div_mod (x + 50) 100 ltac:(lia)).
    pose proof (Z.mod_pos_bound (x + 50) 100 ltac:(lia)). lia.
Qed.

Lemma vtime_exact_from_spec (n : nat) :
  forall k, vtime_exact_from n k = true ->
  forall i, k <= i < k + Z.of_nat n ->
    float64_to_uint (vtime_float i) = Some (nearest_100 i).
Proof.
  induction n as [|n IH]; intros k H i Hi; [lia|].
  cbn [vtime_exact_from] in H. apply andb_prop in H. destruct H as [H0 H1].
  destruct (Z.eq_dec i k) as [->|Hne].
  - unfold vtime_exact_at in H0.
    destruct (float64_to_uint (vtime_float k)); [|discriminate].
    apply Z.eqb_eq in H0. congruence.
  - apply (IH (k + 1)); [assumption|lia].
Qed.

Lemma vtime_exact_below_65536 : vtime_exact_from (Z.to_nat 65536) 0 = true.
Proof. vm_cast_no_check (eq_refl true). Qed.

Lemma vtime_of_small (uint_overflow : F64.float64 -> Z) (ict : Z) :
  0 <= ict < 65536 -> vtime_of uint_overflow ict = nearest_100 ict.
Proof.
  intros H. unfold vtime_of, uint_of_float64.
  rewrite (vtime_exact_from_spec _ 0 vtime_exact_below_65536); [reflexivity|].
  rewrite Z2Nat.id; lia.
Qed.

(** When the rounded timeout exceeds 25500, so does [vtime]: below [2^57]
    on every implementation, beyond on those where [overflow_is_large]. *)
Lemma vtime_of_over (uint_overflow : F64.float64 -> Z) (ict : Z) :
  ict < 2 ^ 57 \/ overflow_is_large uint_overflow ->
  0 <= ict -> 25500 < nearest_100 ict ->
  25500 < vtime_of uint_overflow ict.
Proof.
  intros Hovf H0 H. destruct (Z.lt_ge_cases ict 65536) as [Hs|Hl].
  - rewrite vtime_of_small by lia. assumption.
  - change 65536 with (2 ^ 16) in Hl. destruct Hovf as [Hlt|Hovf].
    + apply vtime_of_large_in_range. lia.
    + apply vtime_of_large; assumption.
Qed.

(** ** convertOptions, check by check *)

Lemma baud_rate_ok_In (b : Z) : baud_rate_ok b = true <-> In b baud_rates.
Proof.
  unfold baud_rate_ok. rewrite existsb_exists. split.
  - intros (x & Hx & E). apply Z.eqb_eq in E. congruence.
  - intros H. exists b. split; [assumption|apply Z.eqb_refl].
Qed.

Lemma baud_switch (A : Type) (b : Z) (x y : A) :
  match b with
  | 50 | 75 | 110 | 134 | 150 | 200 | 300 | 600 | 1200 | 1800 | 2400
  | 4800 | 7200 | 9600 | 14400 | 19200 | 28800 | 38400 | 57600
  | 76800 | 115200 | 230400 => x
  | _ => y
  end = if baud_rate_ok b then x else y.
Proof.
  destruct b as [|p|p]; [reflexivity| |reflexivity].
  repeat (destruct p as [p|p|]; try reflexivity).
Qed.

Lemma data_bits_switch (A : Type) (d : Z) (x5 x6 x7 x8 y : A) :
  match d with 5 => x5 | 6 => x6 | 7 => x7 | 8 => x8 | _ => y end =
  match data_bits_flag d with
  | Some f =>
      if f =? kCS5 then x5 else if f =? kCS6 then x6 else
      if f =? kCS7 then x7 else x8
  | None => y
  end.
Proof.
  destruct d as [|p|p]; [reflexivity| |reflexivity].
  repeat (destruct p as [p|p|]; try reflexivity).
Qed.

Lemma data_bits_flag_Some (d cs : Z) :
  data_bits_flag d = Some cs -> In cs [kCS5; kCS6; kCS7; kCS8].
Proof.
  unfold data_bits_flag. cbn [In].
  repeat (destruct (d =? _); [intros [= <-]; tauto|]). discriminate.
Qed.

Lemma stop_bits_flag_Some (s sb : Z) :
  stop_bits_flag s = Some sb -> In sb [0; kCSTOPB].
Proof.
  unfold stop_bits_flag. cbn [In].
  repeat (destruct (s =? _); [intros [= <-]; tauto|]). discriminate.
Qed.

Lemma stop_bits_switch (A : Type) (s : Z) (x1 x2 y : A) :
  match s with 1 => x1 | 2 => x2 | _ => y end =
  match stop_bits_flag s with
  | Some f => if f =? 0 then x1 else x2
  | None => y
  end.
Proof.
  destruct s as [|p|p]; [reflexivity| |reflexivity].
  repeat (destruct p as [p|p|]; try reflexivity).
Qed.

Section ConvertFacts.

Variable uint_overflow : F64.float64 -> Z.

Lemma convertOptions_steps (o : OpenOptions) :
  convertOptions uint_overflow o =
    let vtime := vtime_of uint_overflow (InterCharacterTimeout o) in
    let vmin := MinimumReadSize o in
    if (vmin =? 0) && (vtime <? 100) then Err (errors_New msg_timing) else
    if 25500 <? vtime then Err (errors_New msg_timeout) else
    if baud_rate_ok (BaudRate o) then
      match data_bits_flag (DataBits o) with
      | None => Err (errors_New msg_data_bits)
      | Some cs =>
          match stop_bits_flag (StopBits o) with
          | None => Err (errors_New msg_stop_bits)
          | Some sb =>
              match parity_flags (ParityMode_of o) with
              | None => Err (errors_New msg_parity)
              | Some pf => Ok (assemble vtime vmin (BaudRate o) cs sb pf)
              end
          end
      end
    else Err (errors_New msg_baud).
Proof.
  unfold convertOptions. cbv zeta.
  destruct (_ && _); [reflexivity|].
  destruct (25500 <? _); [reflexivity|].
  rewrite baud_switch.
  destruct (baud_rate_ok (BaudRate o)); [|reflexivity].
  cbn [result_bind]. rewrite data_bits_switch.
  destruct (data_bits_flag (DataBits o)) as [cs|] eqn:Ecs; [|reflexivity].
  apply data_bits_flag_Some in Ecs.
  destruct Ecs as [<-|[<-|[<-|[<-|[]]]]];
    cbn [result_bind Z.eqb Pos.eqb kCS5 kCS6 kCS7 kCS8];
    rewrite stop_bits_switch;
    (destruct (stop_bits_flag (StopBits o)) as [sb|] eqn:Esb; [|reflexivity]);
    apply stop_bits_flag_Some in Esb; destruct Esb as [<-|[<-|[]]];
    destruct (ParityMode_of o); reflexivity.
Qed.

(** Success, read backwards: every check passed and the structure is the
    assembled one. *)
Lemma convertOptions_Ok_inv (o : OpenOptions) (t : termios) :
  convertOptions uint_overflow o = Ok t ->
  let vtime := vtime_of uint_overflow (InterCharacterTimeout o) in
  (MinimumReadSize o = 0 -> 100 <= vtime) /\ vtime <= 25500 /\
  In (BaudRate o) baud_rates /\
  exists cs sb pf,
    data_bits_flag (DataBits o) = Some cs /\
    stop_bits_flag (StopBits o) = Some sb /\
    parity_flags (ParityMode_of o) = Some pf /\
    t = assemble vtime (MinimumReadSize o) (BaudRate o) cs sb pf.
Proof.
  rewrite convertOptions_steps. cbv zeta.
  destruct (_ && _) eqn:E1; [discriminate|].
  destruct (25500 <? _) eqn:E2; [discriminate|].
  destruct (baud_rate_ok _) eqn:E3; [|discriminate].
  destruct (data_bits_flag _) as [cs|]; [|discriminate].
  destruct (stop_bits_flag _) as [sb|]; [|discriminate].
  destruct (parity_flags _) as [pf|]; [|discriminate].
  intros [= <-]. apply baud_rate_ok_In in E3.
  apply andb_false_iff in E1. rewrite Z.eqb_neq, Z.ltb_ge in E1.
  apply Z.ltb_ge in E2.
  repeat split; [lia|lia|assumption|].
  exists cs, sb, pf. repeat split.
Qed.

(** ** Valid options *)

Lemma timing_accepted_small (o : OpenOptions) :
  timing_accepted o -> 0 <= InterCharacterTimeout o < 65536.
Proof.
  unfold timing_accepted, nearest_100. intros (H0 & H1 & _).
  pose proof (Z.div_mod (InterCharacterTimeout o + 50) 100 ltac:(lia)).
  pose proof (Z.mod_pos_bound (InterCharacterTimeout o + 50) 100 ltac:(lia)).
  lia.
Qed.

Lemma valid_data_bits_flag (o : OpenOptions) :
  valid_data_bits o -> exists cs, data_bits_flag (DataBits o) = Some cs.
Proof.
  unfold valid_data_bits. cbn [In].
  intros [<-|[<-|[<-|[<-|[]]]]]; eexists; reflexivity.
Qed.

Lemma valid_stop_bits_flag (o : OpenOptions) :
  valid_stop_bits o -> exists sb, stop_bits_flag (StopBits o) = Some sb.
Proof.
  unfold valid_stop_bits. cbn [In]. intros [<-|[<-|[]]]; eexists; reflexivity.
Qed.

Lemma valid_parity_flags (o : OpenOptions) :
  valid_parity o -> exists pf, parity_flags (ParityMode_of o) = Some pf.
Proof.
  unfold valid_parity. cbn [In]. intros [<-|[<-|[<-|[]]]]; eexists; reflexivity.
Qed.

(** Options that pass every check convert to the assembled structure. *)
Lemma convertOptions_accepted (o : OpenOptions) (cs sb pf : Z) :
  timing_accepted o -> valid_baud_rate o ->
  data_bits_flag (DataBits o) = Some cs ->
  stop_bits_flag (StopBits o) = Some sb ->
  parity_flags (ParityMode_of o) = Some pf ->
  convertOptions uint_overflow o =
    Ok (assemble (nearest_100 (InterCharacterTimeout o)) (MinimumReadSize o)
                 (BaudRate o) cs sb pf).
Proof.
  intros Ht Hb Hcs Hsb Hpf. rewrite convertOptions_steps. cbv zeta.
  rewrite vtime_of_small by (apply timing_accepted_small; assumption).
  destruct Ht as (H0 & H1 & H2).
  replace (_ && _) with false
    by (symmetry; apply andb_false_iff; rewrite Z.eqb_neq, Z.ltb_ge;
        destruct (Z.eq_dec (MinimumReadSize o) 0); [right; auto|left; auto]).
  replace (25500 <? _) with false by (symmetry; apply Z.ltb_ge; assumption).
  apply baud_rate_ok_In in Hb. rewrite Hb, Hcs, Hsb, Hpf. reflexivity.
Qed.

Lemma speed_t_baud (b : Z) : In b baud_rates -> speed_t b = b.
Proof.
  unfold baud_rates. cbn [In].
  intros H; repeat (destruct H as [<-|H]; [reflexivity|]); contradiction.
Qed.

Lemma parity_flags_Some (p : ParityMode) (pf : Z) :
  parity_flags p = Some pf -> In pf [0; Z.lor kPARENB kPARODD; kPARENB].
Proof. cbn [In]. destruct p; intros [= <-]; tauto. Qed.

(** One goal for each control-flags word [convertOptions] can assemble. *)
Ltac cflag_cases Hcs Hsb Hpf :=
  apply data_bits_flag_Some in Hcs; apply stop_bits_flag_Some in Hsb;
  apply parity_flags_Some in Hpf; cbn [In] in Hcs, Hsb, Hpf;
  destruct Hcs as [<-|[<-|[<-|[<-|[]]]]]; destruct Hsb as [<-|[<-|[]]];
  destruct Hpf as [<-|[<-|[<-|[]]]].

(** C9: whenever [convertOptions] succeeds, the control-flags word of the
    structure it returns has the ignore-modem-status-lines flag [kCLOCAL] and
    the enable-receiver flag [kCREAD] set, whatever the options. *)
Theorem convertOptions_baseline_flags (o : OpenOptions) (t : termios) :
  convertOptions uint_overflow o = Ok t ->
  flag_set (c_cflag t) kCLOCAL /\ flag_set (c_cflag t) kCREAD.
Proof.
  intros H. apply convertOptions_Ok_inv in H. cbv zeta in H.
  destruct H as (_ & _ & _ & cs & sb & pf & Hcs & Hsb & Hpf & ->).
  cbn [assemble c_cflag]. cflag_cases Hcs Hsb Hpf; split; reflexivity.
Qed.

(** C10: whenever [convertOptions] succeeds, the input-flags, output-flags and
    line-flags words of the structure are zero, and every slot of the
    control-character table other than 16 (MIN) and 17 (TIME) is zero; so no
    flag of the input-flags word (parity check, byte stripping) is on. *)
Theorem convertOptions_rest_zero (o : OpenOptions) (t : termios) :
  convertOptions uint_overflow o = Ok t ->
  c_iflag t = 0 /\ c_oflag t = 0 /\ c_lflag t = 0 /\
  length (c_cc t) = kNCCS /\
  (forall i : nat, (i < kNCCS)%nat -> i <> Z.to_nat kVMIN -> i <> Z.to_nat kVTIME ->
     c_cc t !! i = Some 0) /\
  (forall flag : Z, flag_clear (c_iflag t) flag).
Proof.
  intros H. apply convertOptions_Ok_inv in H. cbv zeta in H.
  destruct H as (_ & _ & _ & cs & sb & pf & _ & _ & _ & ->).
  cbn [assemble c_iflag c_oflag c_lflag c_cc].
  do 3 (split; [reflexivity|]). split; [|split].
  - rewrite !length_insert. reflexivity.
  - intros i Hi H16 H17.
    change (Z.to_nat kVMIN) with 16%nat in H16.
    change (Z.to_nat kVTIME) with 17%nat in H17.
    rewrite !list_lookup_insert_ne by congruence.
    apply lookup_replicate_2. exact Hi.
  - intros flag. apply Z.land_0_l.
Qed.

(** ** The checks, one after the other *)

Lemma timing_checks_pass (o : OpenOptions) :
  timing_accepted o ->
  let vtime := vtime_of uint_overflow (InterCharacterTimeout o) in
  vtime = nearest_100 (InterCharacterTimeout o) /\
  (MinimumReadSize o =? 0) && (vtime <? 100) = false /\
  (25500 <? vtime) = false.
Proof.
  intros Ht. cbv zeta.
  rewrite vtime_of_small by (apply timing_accepted_small; assumption).
  destruct Ht as (H0 & H1 & H2). split; [reflexivity|split].
  - apply andb_false_iff. rewrite Z.eqb_neq, Z.ltb_ge.
    destruct (Z.eq_dec (MinimumReadSize o) 0); [right; auto|left; auto].
  - apply Z.ltb_ge. assumption.
Qed.

Lemma convertOptions_bad_baud (o : OpenOptions) :
  timing_accepted o -> ~ valid_baud_rate o ->
  convertOptions uint_overflow o = Err (errors_New msg_baud).
Proof.
  intros Ht Hb. rewrite convertOptions_steps. cbv zeta.
  destruct (timing_checks_pass o Ht) as (_ & -> & ->).
  destruct (baud_rate_ok _) eqn:E; [|reflexivity].
  apply baud_rate_ok_In in E. contradiction.
Qed.

Lemma data_bits_flag_None (o : OpenOptions) :
  ~ valid_data_bits o -> data_bits_flag (DataBits o) = None.
Proof.
  unfold valid_data_bits, data_bits_flag. cbn [In]. intros H.
  repeat match goal with
    | |- context [?a =? ?b] =>
        destruct (Z.eqb_spec a b) as [E|_]; [exfalso; apply H; rewrite E; tauto|]
    end.
  reflexivity.
Qed.

Lemma stop_bits_flag_None (o : OpenOptions) :
  ~ valid_stop_bits o -> stop_bits_flag (StopBits o) = None.
Proof.
  unfold valid_stop_bits, stop_bits_flag. cbn [In]. intros H.
  repeat match goal with
    | |- context [?a =? ?b] =>
        destruct (Z.eqb_spec a b) as [E|_]; [exfalso; apply H; rewrite E; tauto|]
    end.
  reflexivity.
Qed.

Lemma convertOptions_bad_data_bits (o : OpenOptions) :
  timing_accepted o -> valid_baud_rate o -> ~ valid_data_bits o ->
  convertOptions uint_overflow o = Err (errors_New msg_data_bits).
Proof.
  intros Ht Hb Hd. rewrite convertOptions_steps. cbv zeta.
  destruct (timing_checks_pass o Ht) as (_ & -> & ->).
  apply baud_rate_ok_In in Hb. rewrite Hb, data_bits_flag_None by assumption.
  reflexivity.
Qed.

Lemma convertOptions_bad_stop_bits (o : OpenOptions) :
  timing_accepted o -> valid_baud_rate o -> valid_data_bits o ->
  ~ valid_stop_bits o ->
  convertOptions uint_overflow o = Err (errors_New msg_stop_bits).
Proof.
  intros Ht Hb Hd Hs. rewrite convertOptions_steps. cbv zeta.
  destruct (timing_checks_pass o Ht) as (_ & -> & ->).
  apply baud_rate_ok_In in Hb. apply valid_data_bits_flag in Hd.
  destruct Hd as [cs ->]. rewrite Hb, stop_bits_flag_None by assumption.
  reflexivity.
Qed.

Lemma convertOptions_bad_parity (o : OpenOptions) :
  timing_accepted o -> valid_baud_rate o -> valid_data_bits o ->
  valid_stop_bits o -> ~ valid_parity o ->
  convertOptions uint_overflow o = Err (errors_New msg_parity).
Proof.
  intros Ht Hb Hd Hs Hp. rewrite convertOptions_steps. cbv zeta.
  destruct (timing_checks_pass o Ht) as (_ & -> & ->).
  apply baud_rate_ok_In in Hb. apply valid_data_bits_flag in Hd.
  apply valid_stop_bits_flag in Hs.
  destruct Hd as [cs ->]. destruct Hs as [sb ->]. rewrite Hb.
  unfold valid_parity in Hp. cbn [In] in Hp.
  destruct (ParityMode_of o); try reflexivity; exfalso; apply Hp; tauto.
Qed.

Lemma data_bits_flag_valid (o : OpenOptions) (cs : Z) :
  data_bits_flag (DataBits o) = Some cs -> valid_data_bits o.
Proof.
  unfold valid_data_bits, data_bits_flag. cbn [In].
  repeat match goal with
    | |- context [?a =? ?b] =>
        destruct (Z.eqb_spec a b) as [E|_]; [rewrite E; tauto|]
    end.
  discriminate.
Qed.

Lemma stop_bits_flag_valid (o : OpenOptions) (sb : Z) :
  stop_bits_flag (StopBits o) = Some sb -> valid_stop_bits o.
Proof.
  unfold valid_stop_bits, stop_bits_flag. cbn [In].
  repeat match goal with
    | |- context [?a =? ?b] =>
        destruct (Z.eqb_spec a b) as [E|_]; [rewrite E; tauto|]
    end.
  discriminate.
Qed.

Lemma parity_flags_valid (o : OpenOptions) (pf : Z) :
  parity_flags (ParityMode_of o) = Some pf -> valid_parity o.
Proof.
  unfold valid_parity. cbn [In].
  destruct (ParityMode_of o); try discriminate; tauto.
Qed.

(** Success needs every field to pass its check, whatever the other fields
    are. *)
Lemma convertOptions_Ok_valid (o : OpenOptions) (t : termios) :
  convertOptions uint_overflow o = Ok t ->
  valid_baud_rate o /\ valid_data_bits o /\ valid_stop_bits o /\ valid_parity o.
Proof.
  intros H. apply convertOptions_Ok_inv in H. cbv zeta in H.
  destruct H as (_ & _ & Hb & cs & sb & pf & Hcs & Hsb & Hpf & _).
  split; [assumption|]. split; [|split].
  - eapply data_bits_flag_valid; eassumption.
  - eapply stop_bits_flag_valid; eassumption.
  - eapply parity_flags_valid; eassumption.
Qed.

Lemma not_Ok_is_Ok_false {A} (r : result A) :
  (forall a, r <> Ok a) -> is_Ok r = false.
Proof. destruct r as [a|e]; [intros H; destruct (H a eq_refl)|reflexivity]. Qed.

Lemma convertOptions_all_valid (o : OpenOptions) :
  timing_accepted o -> valid_baud_rate o -> valid_data_bits o ->
  valid_stop_bits o -> valid_parity o ->
  exists cs sb pf,
    data_bits_flag (DataBits o) = Some cs /\
    stop_bits_flag (StopBits o) = Some sb /\
    parity_flags (ParityMode_of o) = Some pf /\
    convertOptions uint_overflow o =
      Ok (assemble (nearest_100 (InterCharacterTimeout o)) (MinimumReadSize o)
                   (BaudRate o) cs sb pf).
Proof.
  intros Ht Hb Hd Hs Hp.
  destruct (valid_data_bits_flag o Hd) as [cs Hcs].
  destruct (valid_stop_bits_flag o Hs) as [sb Hsb].
  destruct (valid_parity_flags o Hp) as [pf Hpf].
  exists cs, sb, pf. repeat (split; [assumption|]).
  apply convertOptions_accepted; assumption.
Qed.

(** C5: with a baud rate of the fixed set and the other fields valid,
    [convertOptions] succeeds and the input and output speeds of the
    structure are the baud rate; with any other integer as baud rate it does
    not succeed, and its error is the invalid-baud-rate one as soon as the
    timing check, which comes first, passes. *)
Theorem convertOptions_baud_rate (o : OpenOptions) :
  (In (BaudRate o) baud_rates ->
   timing_accepted o -> valid_data_bits o -> valid_stop_bits o -> valid_parity o ->
   exists t, convertOptions uint_overflow o = Ok t /\
             c_ispeed t = BaudRate o /\ c_ospeed t = BaudRate o) /\
  (~ In (BaudRate o) baud_rates ->
   is_Ok (convertOptions uint_overflow o) = false /\
   (timing_accepted o ->
    convertOptions uint_overflow o = Err (errors_New msg_baud))).
Proof.
  split.
  - intros Hb Ht Hd Hs Hp.
    destruct (convertOptions_all_valid o Ht Hb Hd Hs Hp)
      as (cs & sb & pf & _ & _ & _ & ->).
    eexists. split; [reflexivity|].
    cbn [assemble c_ispeed c_ospeed]. rewrite speed_t_baud by assumption.
    split; reflexivity.
  - intros Hb. split.
    + apply not_Ok_is_Ok_false. intros t Ht.
      apply convertOptions_Ok_valid in Ht. apply Hb, Ht.
    + intros Ht. apply convertOptions_bad_baud; assumption.
Qed.

(** C6: with a number of data bits that is none of 5, 6, 7, 8,
    [convertOptions] does not succeed, and its error is the invalid-data-bits
    one as soon as the checks that come first (timing, baud rate) pass; with
    one of the four and the other fields valid it succeeds, and the
    character-size field of the control flags holds the pattern of that
    number and none of the other three. *)
Theorem convertOptions_data_bits (o : OpenOptions) :
  (~ In (DataBits o) [5; 6; 7; 8] ->
   is_Ok (convertOptions uint_overflow o) = false /\
   (timing_accepted o -> valid_baud_rate o ->
    convertOptions uint_overflow o = Err (errors_New msg_data_bits))) /\
  (In (DataBits o) [5; 6; 7; 8] ->
   timing_accepted o -> valid_baud_rate o -> valid_stop_bits o -> valid_parity o ->
   exists t, convertOptions uint_overflow o = Ok t /\
     (char_size (c_cflag t) = kCS5 <-> DataBits o = 5) /\
     (char_size (c_cflag t) = kCS6 <-> DataBits o = 6) /\
     (char_size (c_cflag t) = kCS7 <-> DataBits o = 7) /\
     (char_size (c_cflag t) = kCS8 <-> DataBits o = 8)).
Proof.
  split.
  - intros Hd. split.
    + apply not_Ok_is_Ok_false. intros t Ht.
      apply convertOptions_Ok_valid in Ht. apply Hd, Ht.
    + intros Ht Hb. apply convertOptions_bad_data_bits; assumption.
  - intros Hd Ht Hb Hs Hp.
    destruct (convertOptions_all_valid o Ht Hb Hd Hs Hp)
      as (cs & sb & pf & Hcs & Hsb & Hpf & ->).
    eexists. split; [reflexivity|]. cbn [assemble c_cflag].
    apply stop_bits_flag_Some in Hsb. apply parity_flags_Some in Hpf.
    cbn [In] in Hd, Hsb, Hpf.
    destruct Hd as [E|[E|[E|[E|[]]]]]; rewrite <- E in *;
      injection Hcs as <-;
      destruct Hsb as [<-|[<-|[]]]; destruct Hpf as [<-|[<-|[<-|[]]]];
      repeat split; intros; (reflexivity || discriminate).
Qed.

(** C7: with the fields checked before it valid, parity NONE makes
    [convertOptions] succeed with the parity-enable and odd-parity flags both
    clear, ODD with both set, EVEN with parity-enable set and odd-parity
    clear; any other parity mode makes it fail with the invalid-parity-mode
    error. *)
Theorem convertOptions_parity (o : OpenOptions) :
  timing_accepted o -> valid_baud_rate o -> valid_data_bits o -> valid_stop_bits o ->
  match ParityMode_of o with
  | PARITY_NONE =>
      exists t, convertOptions uint_overflow o = Ok t /\
        flag_clear (c_cflag t) kPARENB /\ flag_clear (c_cflag t) kPARODD
  | PARITY_ODD =>
      exists t, convertOptions uint_overflow o = Ok t /\
        flag_set (c_cflag t) kPARENB /\ flag_set (c_cflag t) kPARODD
  | PARITY_EVEN =>
      exists t, convertOptions uint_overflow o = Ok t /\
        flag_set (c_cflag t) kPARENB /\ flag_clear (c_cflag t) kPARODD
  | PARITY_other _ =>
      convertOptions uint_overflow o = Err (errors_New msg_parity)
  end.
Proof.
  intros Ht Hb Hd Hs.
  destruct (ParityMode_of o) as [| | |v] eqn:E.
  4: { apply convertOptions_bad_parity; try assumption.
       unfold valid_parity. rewrite E. cbn [In].
       intros [H|[H|[H|[]]]]; discriminate. }
  all: assert (Hp : valid_parity o)
         by (unfold valid_parity; rewrite E; cbn [In]; tauto);
       destruct (convertOptions_all_valid o Ht Hb Hd Hs Hp)
         as (cs & sb & pf & Hcs & Hsb & Hpf & ->);
       eexists; (split; [reflexivity|]); cbn [assemble c_cflag];
       rewrite E in Hpf; injection Hpf as <-;
       apply data_bits_flag_Some in Hcs; apply stop_bits_flag_Some in Hsb;
       cbn [In] in Hcs, Hsb;
       destruct Hcs as [<-|[<-|[<-|[<-|[]]]]]; destruct Hsb as [<-|[<-|[]]];
       split; reflexivity.
Qed.

(** C8: with the fields checked before it valid, one stop bit makes
    [convertOptions] succeed with the two-stop-bit flag clear, two stop bits
    with the flag set (the parity mode being valid); any other number makes
    it fail with the invalid-stop-bits error. *)
Theorem convertOptions_stop_bits (o : OpenOptions) :
  timing_accepted o -> valid_baud_rate o -> valid_data_bits o ->
  (StopBits o = 1 -> valid_parity o ->
   exists t, convertOptions uint_overflow o = Ok t /\
             flag_clear (c_cflag t) kCSTOPB) /\
  (StopBits o = 2 -> valid_parity o ->
   exists t, convertOptions uint_overflow o = Ok t /\
             flag_set (c_cflag t) kCSTOPB) /\
  (StopBits o <> 1 -> StopBits o <> 2 ->
   convertOptions uint_overflow o = Err (errors_New msg_stop_bits)).
Proof.
  intros Ht Hb Hd.
  assert (Hok : forall s, StopBits o = s -> In s [1; 2] -> valid_parity o ->
            exists cs pf sb, In cs [kCS5; kCS6; kCS7; kCS8] /\
              In pf [0; Z.lor kPARENB kPARODD; kPARENB] /\
              stop_bits_flag s = Some sb /\
              convertOptions uint_overflow o =
                Ok (assemble (nearest_100 (InterCharacterTimeout o))
                      (MinimumReadSize o) (BaudRate o) cs sb pf)).
  { intros s Es Hs Hp.
    assert (Hv : valid_stop_bits o) by (unfold valid_stop_bits; rewrite Es; exact Hs).
    destruct (convertOptions_all_valid o Ht Hb Hd Hv Hp)
      as (cs & sb & pf & Hcs & Hsb & Hpf & ->).
    exists cs, pf, sb. rewrite Es in Hsb.
    split; [eapply data_bits_flag_Some; eassumption|].
    split; [eapply parity_flags_Some; eassumption|].
    split; [assumption|reflexivity]. }
  split; [|split].
  - intros E Hp.
    destruct (Hok 1 E ltac:(cbn [In]; tauto) Hp) as (cs & pf & sb & Hcs & Hpf & Hsb & ->).
    injection Hsb as <-. eexists. split; [reflexivity|].
    cbn [assemble c_cflag]. cbn [In] in Hcs, Hpf.
    destruct Hcs as [<-|[<-|[<-|[<-|[]]]]]; destruct Hpf as [<-|[<-|[<-|[]]]];
      reflexivity.
  - intros E Hp.
    destruct (Hok 2 E ltac:(cbn [In]; tauto) Hp) as (cs & pf & sb & Hcs & Hpf & Hsb & ->).
    injection Hsb as <-. eexists. split; [reflexivity|].
    cbn [assemble c_cflag]. cbn [In] in Hcs, Hpf.
    destruct Hcs as [<-|[<-|[<-|[<-|[]]]]]; destruct Hpf as [<-|[<-|[<-|[]]]];
      reflexivity.
  - intros H1 H2. apply convertOptions_bad_stop_bits; try assumption.
    unfold valid_stop_bits. cbn [In]. intros [H|[H|[]]]; congruence.
Qed.

(** ** Timing *)

Lemma assemble_cc_VTIME (vtime vmin baud cs sb pf : Z) :
  c_cc (assemble vtime vmin baud cs sb pf) !! Z.to_nat kVTIME = Some (cc_t (vtime / 100)).
Proof. reflexivity. Qed.

Lemma assemble_cc_VMIN (vtime vmin baud cs sb pf : Z) :
  c_cc (assemble vtime vmin baud cs sb pf) !! Z.to_nat kVMIN = Some (cc_t vmin).
Proof. reflexivity. Qed.

Lemma cc_t_tenths (r : Z) : 0 <= r <= 25500 -> cc_t (r / 100) = r / 100.
Proof.
  intros H. unfold cc_t. apply Z.mod_small.
  change (2 ^ 8) with 256. split.
  - apply Z.div_pos; lia.
  - apply Z.div_lt_upper_bound; lia.
Qed.

Lemma nearest_100_nonneg (x : Z) : 0 <= x -> 0 <= nearest_100 x.
Proof.
  intros H. unfold nearest_100.
  pose proof (Z.div_pos (x + 50) 100 ltac:(lia) ltac:(lia)). lia.
Qed.

Lemma nearest_100_bounds (x lo hi : Z) :
  100 * lo - 50 <= x < 100 * hi + 50 -> 100 * lo <= nearest_100 x <= 100 * hi.
Proof.
  intros H. unfold nearest_100.
  pose proof (Z.div_mod (x + 50) 100 ltac:(lia)).
  pose proof (Z.mod_pos_bound (x + 50) 100 ltac:(lia)). lia.
Qed.

(** Accepted timing and valid fields: success, with the rounded tenths in the
    TIME slot. *)
Lemma convertOptions_succeeds_TIME (o : OpenOptions) :
  timing_accepted o ->
  valid_baud_rate o -> valid_data_bits o -> valid_stop_bits o -> valid_parity o ->
  exists t, convertOptions uint_overflow o = Ok t /\
            c_cc t !! Z.to_nat kVTIME =
              Some (nearest_100 (InterCharacterTimeout o) / 100).
Proof.
  intros Ht Hb Hd Hs Hp.
  destruct (convertOptions_all_valid o Ht Hb Hd Hs Hp)
    as (cs & sb & pf & _ & _ & _ & ->).
  eexists. split; [reflexivity|].
  destruct Ht as (H0 & H1 & _). pose proof (nearest_100_nonneg _ H0).
  rewrite assemble_cc_VTIME, cc_t_tenths by lia. reflexivity.
Qed.

Lemma convertOptions_Ok_TIME (o : OpenOptions) (t : termios) :
  0 <= InterCharacterTimeout o ->
  nearest_100 (InterCharacterTimeout o) <= 25500 ->
  convertOptions uint_overflow o = Ok t ->
  c_cc t !! Z.to_nat kVTIME = Some (nearest_100 (InterCharacterTimeout o) / 100).
Proof.
  intros H0 H Hok. apply convertOptions_Ok_inv in Hok. cbv zeta in Hok.
  destruct Hok as (_ & _ & _ & cs & sb & pf & _ & _ & _ & ->).
  pose proof (nearest_100_nonneg _ H0).
  pose proof (nearest_100_spec (InterCharacterTimeout o)) as [_ Hn].
  rewrite assemble_cc_VTIME, vtime_of_small by lia.
  rewrite cc_t_tenths by lia. reflexivity.
Qed.

(** C4: [convertOptions] takes for [vtime] the multiple of 100 nearest to
    [InterCharacterTimeout], a half rounded up, and fails with the
    invalid-timing error when that multiple exceeds 25500; otherwise the TIME
    slot holds its hundredth (1 for 149, 2 for 150; 25550 rounds to 25600 and
    fails).  From [2^57] on the float64 product can leave the range of
    [uint]; the failure then rests on [overflow_is_large]. *)
Theorem convertOptions_vtime_rounding (o : OpenOptions) :
  0 <= InterCharacterTimeout o ->
  let r := nearest_100 (InterCharacterTimeout o) in
  (r mod 100 = 0 /\ r - 50 <= InterCharacterTimeout o < r + 50) /\
  (InterCharacterTimeout o < 65536 ->
   vtime_of uint_overflow (InterCharacterTimeout o) = r) /\
  (25500 < r ->
   InterCharacterTimeout o < 2 ^ 57 \/ overflow_is_large uint_overflow ->
   convertOptions uint_overflow o = Err (errors_New msg_timeout)) /\
  (r <= 25500 -> (MinimumReadSize o = 0 -> 100 <= r) ->
   valid_baud_rate o -> valid_data_bits o -> valid_stop_bits o -> valid_parity o ->
   exists t, convertOptions uint_overflow o = Ok t /\
             c_cc t !! Z.to_nat kVTIME = Some (r / 100)) /\
  (r <= 25500 -> forall t, convertOptions uint_overflow o = Ok t ->
   c_cc t !! Z.to_nat kVTIME = Some (r / 100)).
Proof.
  intros H0 r. pose proof (nearest_100_spec (InterCharacterTimeout o)) as Hn.
  fold r in Hn. pose proof (nearest_100_nonneg _ H0) as Hr. fold r in Hr.
  split; [exact Hn|]. split; [|split; [|split]].
  - intros H. apply vtime_of_small. lia.
  - intros H Hovf. rewrite convertOptions_steps. cbv zeta.
    assert (Hv : 25500 < vtime_of uint_overflow (InterCharacterTimeout o))
      by (apply vtime_of_over; assumption).
    replace (_ && _) with false
      by (symmetry; apply andb_false_iff; right; apply Z.ltb_ge; lia).
    replace (25500 <? _) with true by (symmetry; apply Z.ltb_lt; exact Hv).
    reflexivity.
  - intros H Hmin Hb Hd Hs Hp.
    apply convertOptions_succeeds_TIME; try assumption.
    repeat split; assumption.
  - intros H t Hok. apply (convertOptions_Ok_TIME); assumption.
Qed.

(** C2, with the bound the code has: with [MinimumReadSize] zero,
    [convertOptions] fails with the invalid-timing error for every
    [InterCharacterTimeout] below 50 (49 for one); from 50 on (up to 25549,
    the other fields valid) it succeeds with the rounded tenths in the TIME
    slot, 1 for 50 as for 100.  So a zero [MinimumReadSize] requires
    [InterCharacterTimeout >= 50] for success. *)
Theorem convertOptions_zero_min_read (o : OpenOptions) :
  MinimumReadSize o = 0 -> 0 <= InterCharacterTimeout o ->
  (InterCharacterTimeout o < 50 ->
   convertOptions uint_overflow o = Err (errors_New msg_timing)) /\
  (50 <= InterCharacterTimeout o <= 25549 ->
   valid_baud_rate o -> valid_data_bits o -> valid_stop_bits o -> valid_parity o ->
   exists t, convertOptions uint_overflow o = Ok t /\
             c_cc t !! Z.to_nat kVTIME =
               Some (nearest_100 (InterCharacterTimeout o) / 100)) /\
  (InterCharacterTimeout o = 100 ->
   forall t, convertOptions uint_overflow o = Ok t ->
   c_cc t !! Z.to_nat kVTIME = Some 1) /\
  (forall t, convertOptions uint_overflow o = Ok t ->
   50 <= InterCharacterTimeout o).
Proof.
  intros Hmin H0.
  assert (Hlow : InterCharacterTimeout o < 50 ->
                 convertOptions uint_overflow o = Err (errors_New msg_timing)).
  { intros H. rewrite convertOptions_steps. cbv zeta.
    rewrite vtime_of_small by lia.
    assert (Hn : nearest_100 (InterCharacterTimeout o) = 0).
    { unfold nearest_100. rewrite Z.div_small by lia. reflexivity. }
    rewrite Hn, Hmin. reflexivity. }
  split; [exact Hlow|]. split; [|split].
  - intros H Hb Hd Hs Hp.
    pose proof (nearest_100_bounds (InterCharacterTimeout o) 1 255 ltac:(lia)).
    apply convertOptions_succeeds_TIME; try assumption.
    repeat split; lia.
  - intros H t Hok.
    apply convertOptions_Ok_TIME in Hok; [|lia|rewrite H; discriminate].
    rewrite Hok, H. reflexivity.
  - intros t Hok.
    destruct (Z.lt_ge_cases (InterCharacterTimeout o) 50) as [Hlt|Hge]; [|exact Hge].
    rewrite (Hlow Hlt) in Hok. discriminate.
Qed.

(** Whenever [convertOptions] succeeds, the MIN slot holds [MinimumReadSize]
    cut to a byte. *)
Lemma convertOptions_Ok_MIN (o : OpenOptions) (t : termios) :
  convertOptions uint_overflow o = Ok t ->
  c_cc t !! Z.to_nat kVMIN = Some (MinimumReadSize o mod 2 ^ 8).
Proof.
  intros Hok. apply convertOptions_Ok_inv in Hok. cbv zeta in Hok.
  destruct Hok as (_ & _ & _ & cs & sb & pf & _ & _ & _ & ->).
  apply assemble_cc_VMIN.
Qed.

End ConvertFacts.

(** C2 does not hold at 50: with [MinimumReadSize] zero the conversion
    succeeds, and the TIME slot holds 1. *)
Lemma convertOptions_timeout_50_accepted :
  exists t, convertOptions uint_overflow_sat (options_8N1 50 0) = Ok t /\
            c_cc t !! Z.to_nat kVTIME = Some 1.
Proof. eexists. split; vm_compute; reflexivity. Qed.

(** C3, at [MinimumReadSize = 256] with a zero timeout: the conversion
    succeeds, and both the MIN and the TIME slot hold 0. *)
Theorem convertOptions_min_read_size_wraps :
  MinimumReadSize (options_8N1 0 256) = 256 /\
  exists t, convertOptions uint_overflow_sat (options_8N1 0 256) = Ok t /\
            c_cc t !! Z.to_nat kVMIN = Some 0 /\
            c_cc t !! Z.to_nat kVTIME = Some 0.
Proof. split; [reflexivity|]. eexists. repeat split; vm_compute; reflexivity. Qed.

(** ** Device activation *)

Section ActivateFacts.

Variable uint_overflow : F64.float64 -> Z.
Variable K : kernel.

(** The calls of [openInternal] once the device is open: [open], [fcntl],
    and [ioctl] when it comes to it; no [close]. *)
Lemma openInternal_calls (o : OpenOptions) (tr0 : list syscall) (fd : Z) :
  let flags := [O_RDWR; O_NOCTTY; O_NONBLOCK] in
  k_open K (PortName o) flags perm_0600 = Ok fd ->
  exists rest,
    snd (openInternal uint_overflow K o tr0) =
      tr0 ++ SysOpen (PortName o) flags perm_0600 (Ok fd)
          :: SysFcntlSetfl fd 0 (k_fcntl K fd 0) :: rest /\
    (rest = [] \/ exists t, rest = [SysIoctl fd kTIOCSETA t (k_ioctl K fd kTIOCSETA t)]).
Proof.
  intros flags Hopen.
  unfold openInternal, os_OpenFile, setTermios, io_bind, io_call, io_ret.
  fold flags. rewrite Hopen. cbn [result_bind Fd].
  destruct (k_fcntl K fd 0) as [r1 errno].
  destruct (os_NewSyscallError _ errno);
    [exists []; cbn [snd]; rewrite <- app_assoc; split; [reflexivity|tauto]|].
  destruct (negb (r1 =? 0));
    [exists []; cbn [snd]; rewrite <- app_assoc; split; [reflexivity|tauto]|].
  destruct (convertOptions uint_overflow o) as [t|err];
    [|exists []; cbn [snd]; rewrite <- app_assoc; split; [reflexivity|tauto]].
  exists [SysIoctl fd kTIOCSETA t (k_ioctl K fd kTIOCSETA t)].
  split; [|right; exists t; reflexivity].
  destruct (k_ioctl K fd kTIOCSETA t) as [r1' errno'].
  destruct (os_NewSyscallError _ errno'); [|destruct (negb (r1' =? 0))];
    cbn [snd]; rewrite <- !app_assoc; reflexivity.
Qed.

(** C1, as the code has it: when the open sequence fails after the device
    path has been opened (at the mode-switch [fcntl] call, at the conversion
    of the options or at the termios-apply call), [openInternal] returns the
    error without closing the descriptor: it makes no [close] call at all,
    and the descriptor is still open when the error is returned. *)
Theorem openInternal_closes_nothing (o : OpenOptions) (tr0 : list syscall)
    (fd : Z) (e : error) :
  k_open K (PortName o) [O_RDWR; O_NOCTTY; O_NONBLOCK] perm_0600 = Ok fd ->
  fst (openInternal uint_overflow K o tr0) = Err e ->
  exists calls,
    snd (openInternal uint_overflow K o tr0) = tr0 ++ calls /\
    (forall fd', closes_of fd' calls = 0%nat) /\
    fd ∈ open_descriptors calls.
Proof.
  intros Hopen _.
  destruct (openInternal_calls o tr0 fd Hopen) as (rest & Htr & Hrest).
  eexists. split; [exact Htr|].
  destruct Hrest as [->|[t ->]]; split;
    try (intros fd'; reflexivity);
    unfold open_descriptors; cbn [foldl track]; set_solver.
Qed.

End ActivateFacts.

(** C1 does not hold when [fcntl] is refused: the error is returned,
    descriptor 3 has not been closed and is still open. *)
Lemma openInternal_fcntl_failure_leaks :
  let run := openInternal uint_overflow_sat kernel_fcntl_fails (options_8N1 0 1) [] in
  fst run = Err (SyscallError "SYS_IOCTL" 9) /\
  snd run = [SysOpen "/dev/cu.usbserial" [O_RDWR; O_NOCTTY; O_NONBLOCK] 384 (Ok 3);
             SysFcntlSetfl 3 0 (2 ^ 64 - 1, 9)] /\
  closes_of 3 (snd run) = 0%nat /\
  3 ∈ open_descriptors (snd run).
Proof.
  cbv zeta. split; [reflexivity|]. split; [reflexivity|]. split; [reflexivity|].
  change (3 ∈ foldl track ∅
            [SysOpen "/dev/cu.usbserial" [O_RDWR; O_NOCTTY; O_NONBLOCK] 384 (Ok 3);
             SysFcntlSetfl 3 0 (2 ^ 64 - 1, 9)]).
  cbn [foldl track]. set_solver.
Qed.

(** ** The theorems at concrete options *)

Lemma overflow_is_large_sat : overflow_is_large uint_overflow_sat.
Proof.
  intros f Hf _. unfold uint_overflow_sat. rewrite Hf. reflexivity.
Qed.

Lemma timing_accepted_intro (o : OpenOptions) :
  0 <= InterCharacterTimeout o <= 25549 ->
  (MinimumReadSize o = 0 -> 50 <= InterCharacterTimeout o) ->
  timing_accepted o.
Proof.
  intros H Hmin. unfold timing_accepted.
  pose proof (nearest_100_bounds (InterCharacterTimeout o) 0 255 ltac:(lia)).
  split; [lia|]. split; [lia|]. intros Hz.
  pose proof (nearest_100_bounds (InterCharacterTimeout o) 1 255 ltac:(lia)). lia.
Qed.

Lemma valid_baud_rate_9600 (o : OpenOptions) : BaudRate o = 9600 -> valid_baud_rate o.
Proof. unfold valid_baud_rate. intros ->. cbn [In baud_rates]. tauto. Qed.

Lemma valid_data_bits_8 (o : OpenOptions) : DataBits o = 8 -> valid_data_bits o.
Proof. unfold valid_data_bits. intros ->. cbn [In]. tauto. Qed.

Lemma valid_stop_bits_1 (o : OpenOptions) : StopBits o = 1 -> valid_stop_bits o.
Proof. unfold valid_stop_bits. intros ->. cbn [In]. tauto. Qed.

Lemma valid_parity_NONE (o : OpenOptions) :
  ParityMode_of o = PARITY_NONE -> valid_parity o.
Proof. unfold valid_parity. intros ->. cbn [In]. tauto. Qed.

Lemma openInternal_closes_nothing_witness :
  k_open kernel_ioctl_fails "/dev/cu.usbserial" [O_RDWR; O_NOCTTY; O_NONBLOCK]
         perm_0600 = Ok 3 /\
  fst (openInternal uint_overflow_sat kernel_ioctl_fails (options_8N1 0 1) [])
    = Err (SyscallError "SYS_IOCTL" 25) /\
  exists calls,
    snd (openInternal uint_overflow_sat kernel_ioctl_fails (options_8N1 0 1) [])
      = [] ++ calls /\
    (forall fd', closes_of fd' calls = 0%nat) /\
    3 ∈ open_descriptors calls.
Proof.
  split; [reflexivity|]. split; [vm_compute; reflexivity|].
  apply (openInternal_closes_nothing uint_overflow_sat kernel_ioctl_fails
           (options_8N1 0 1) [] 3 (SyscallError "SYS_IOCTL" 25)).
  - reflexivity.
  - vm_compute; reflexivity.
Defined.

Lemma convertOptions_zero_min_read_witness :
  convertOptions uint_overflow_sat (options_8N1 49 0) = Err (errors_New msg_timing) /\
  (exists t, convertOptions uint_overflow_sat (options_8N1 50 0) = Ok t /\
             c_cc t !! Z.to_nat kVTIME = Some 1) /\
  (exists t, convertOptions uint_overflow_sat (options_8N1 100 0) = Ok t /\
             c_cc t !! Z.to_nat kVTIME = Some 1).
Proof.
  split; [|split].
  - apply (convertOptions_zero_min_read uint_overflow_sat (options_8N1 49 0));
      cbn; [reflexivity|lia|lia].
  - apply (convertOptions_zero_min_read uint_overflow_sat (options_8N1 50 0));
      [reflexivity|cbn; lia|cbn; lia
      |apply valid_baud_rate_9600|apply valid_data_bits_8
      |apply valid_stop_bits_1|apply valid_parity_NONE]; reflexivity.
  - apply (convertOptions_zero_min_read uint_overflow_sat (options_8N1 100 0));
      [reflexivity|cbn; lia|cbn; lia
      |apply valid_baud_rate_9600|apply valid_data_bits_8
      |apply valid_stop_bits_1|apply valid_parity_NONE]; reflexivity.
Defined.

Lemma convertOptions_vtime_rounding_witness :
  (exists t, convertOptions uint_overflow_sat (options_8N1 149 1) = Ok t /\
             c_cc t !! Z.to_nat kVTIME = Some 1) /\
  (exists t, convertOptions uint_overflow_sat (options_8N1 150 1) = Ok t /\
             c_cc t !! Z.to_nat kVTIME = Some 2) /\
  convertOptions uint_overflow_sat (options_8N1 25550 1) = Err (errors_New msg_timeout) /\
  convertOptions uint_overflow_sat (options_8N1 (2 ^ 64 - 1) 1)
    = Err (errors_New msg_timeout).
Proof.
  split; [|split; [|split]].
  - apply (convertOptions_vtime_rounding uint_overflow_sat (options_8N1 149 1));
      [cbn; lia|vm_compute; discriminate|discriminate
      |apply valid_baud_rate_9600|apply valid_data_bits_8
      |apply valid_stop_bits_1|apply valid_parity_NONE]; reflexivity.
  - apply (convertOptions_vtime_rounding uint_overflow_sat (options_8N1 150 1));
      [cbn; lia|vm_compute; discriminate|discriminate
      |apply valid_baud_rate_9600|apply valid_data_bits_8
      |apply valid_stop_bits_1|apply valid_parity_NONE]; reflexivity.
  - apply (convertOptions_vtime_rounding uint_overflow_sat (options_8N1 25550 1));
      [cbn; lia|vm_compute; reflexivity|left; cbn; lia].
  - apply (convertOptions_vtime_rounding uint_overflow_sat (options_8N1 (2 ^ 64 - 1) 1));
      [cbn; lia|vm_compute; reflexivity|right; exact overflow_is_large_sat].
Defined.

Lemma convertOptions_baud_rate_witness :
  (exists t, convertOptions uint_overflow_sat (options_8N1 0 1) = Ok t /\
             c_ispeed t = 9600 /\ c_ospeed t = 9600) /\
  convertOptions uint_overflow_sat
    (mk_OpenOptions "/dev/cu.usbserial" 9601 8 1 PARITY_NONE 0 1)
    = Err (errors_New msg_baud).
Proof.
  split.
  - apply (convertOptions_baud_rate uint_overflow_sat (options_8N1 0 1));
      [apply valid_baud_rate_9600|apply timing_accepted_intro; cbn; lia
      |apply valid_data_bits_8|apply valid_stop_bits_1|apply valid_parity_NONE];
      reflexivity.
  - apply (convertOptions_baud_rate uint_overflow_sat
             (mk_OpenOptions "/dev/cu.usbserial" 9601 8 1 PARITY_NONE 0 1)).
    + cbn [In baud_rates BaudRate]. intros H.
      repeat (destruct H as [H|H]; [discriminate H|]). exact H.
    + apply timing_accepted_intro; cbn; lia.
Defined.

Lemma convertOptions_data_bits_witness :
  convertOptions uint_overflow_sat
    (mk_OpenOptions "/dev/cu.usbserial" 9600 9 1 PARITY_NONE 0 1)
    = Err (errors_New msg_data_bits) /\
  (exists t, convertOptions uint_overflow_sat (options_8N1 0 1) = Ok t /\
     (char_size (c_cflag t) = kCS5 <-> 8 = 5) /\
     (char_size (c_cflag t) = kCS6 <-> 8 = 6) /\
     (char_size (c_cflag t) = kCS7 <-> 8 = 7) /\
     (char_size (c_cflag t) = kCS8 <-> 8 = 8)).
Proof.
  split.
  - apply (convertOptions_data_bits uint_overflow_sat
             (mk_OpenOptions "/dev/cu.usbserial" 9600 9 1 PARITY_NONE 0 1)).
    + cbn [In DataBits]. intros H.
      repeat (destruct H as [H|H]; [discriminate H|]). exact H.
    + apply timing_accepted_intro; cbn; lia.
    + apply valid_baud_rate_9600. reflexivity.
  - apply (convertOptions_data_bits uint_overflow_sat (options_8N1 0 1));
      [apply valid_data_bits_8|apply timing_accepted_intro; cbn; lia
      |apply valid_baud_rate_9600|apply valid_stop_bits_1|apply valid_parity_NONE];
      reflexivity.
Defined.

Lemma convertOptions_parity_witness :
  (exists t,
     convertOptions uint_overflow_sat
       (mk_OpenOptions "/dev/cu.usbserial" 9600 8 1 PARITY_ODD 0 1) = Ok t /\
     flag_set (c_cflag t) kPARENB /\ flag_set (c_cflag t) kPARODD) /\
  convertOptions uint_overflow_sat
    (mk_OpenOptions "/dev/cu.usbserial" 9600 8 1 (PARITY_other 3) 0 1)
    = Err (errors_New msg_parity).
Proof.
  split.
  - apply (convertOptions_parity uint_overflow_sat
             (mk_OpenOptions "/dev/cu.usbserial" 9600 8 1 PARITY_ODD 0 1));
      [apply timing_accepted_intro; cbn; lia|apply valid_baud_rate_9600
      |apply valid_data_bits_8|apply valid_stop_bits_1]; reflexivity.
  - apply (convertOptions_parity uint_overflow_sat
             (mk_OpenOptions "/dev/cu.usbserial" 9600 8 1 (PARITY_other 3) 0 1));
      [apply timing_accepted_intro; cbn; lia|apply valid_baud_rate_9600
      |apply valid_data_bits_8|apply valid_stop_bits_1]; reflexivity.
Defined.

Lemma convertOptions_stop_bits_witness :
  (exists t, convertOptions uint_overflow_sat (options_8N1 0 1) = Ok t /\
             flag_clear (c_cflag t) kCSTOPB) /\
  (exists t,
     convertOptions uint_overflow_sat
       (mk_OpenOptions "/dev/cu.usbserial" 9600 8 2 PARITY_NONE 0 1) = Ok t /\
     flag_set (c_cflag t) kCSTOPB) /\
  convertOptions uint_overflow_sat
    (mk_OpenOptions "/dev/cu.usbserial" 9600 8 3 PARITY_NONE 0 1)
    = Err (errors_New msg_stop_bits).
Proof.
  split; [|split].
  - apply (convertOptions_stop_bits uint_overflow_sat (options_8N1 0 1));
      [apply timing_accepted_intro; cbn; lia|apply valid_baud_rate_9600
      |apply valid_data_bits_8| |apply valid_parity_NONE]; reflexivity.
  - apply (convertOptions_stop_bits uint_overflow_sat
             (mk_OpenOptions "/dev/cu.usbserial" 9600 8 2 PARITY_NONE 0 1));
      [apply timing_accepted_intro; cbn; lia|apply valid_baud_rate_9600
      |apply valid_data_bits_8| |apply valid_parity_NONE]; reflexivity.
  - apply (convertOptions_stop_bits uint_overflow_sat
             (mk_OpenOptions "/dev/cu.usbserial" 9600 8 3 PARITY_NONE 0 1));
      [apply timing_accepted_intro; cbn; lia|apply valid_baud_rate_9600
      |apply valid_data_bits_8| | ]; (reflexivity || discriminate).
Defined.

Lemma convertOptions_baseline_flags_witness :
  convertOptions uint_overflow_sat (options_8N1 0 1)
    = Ok (assemble 0 1 9600 kCS8 0 0) /\
  flag_set (c_cflag (assemble 0 1 9600 kCS8 0 0)) kCLOCAL /\
  flag_set (c_cflag (assemble 0 1 9600 kCS8 0 0)) kCREAD.
Proof.
  split; [vm_compute; reflexivity|].
  apply (convertOptions_baseline_flags uint_overflow_sat (options_8N1 0 1)).
  vm_compute; reflexivity.
Defined.

Lemma convertOptions_rest_zero_witness :
  convertOptions uint_overflow_sat (options_8N1 200 0)
    = Ok (assemble 200 0 9600 kCS8 0 0) /\
  c_iflag (assemble 200 0 9600 kCS8 0 0) = 0 /\
  c_oflag (assemble 200 0 9600 kCS8 0 0) = 0 /\
  c_lflag (assemble 200 0 9600 kCS8 0 0) = 0 /\
  length (c_cc (assemble 200 0 9600 kCS8 0 0)) = kNCCS /\
  (forall i : nat, (i < kNCCS)%nat -> i <> Z.to_nat kVMIN -> i <> Z.to_nat kVTIME ->
     c_cc (assemble 200 0 9600 kCS8 0 0) !! i = Some 0) /\
  (forall flag : Z, flag_clear (c_iflag (assemble 200 0 9600 kCS8 0 0)) flag).
Proof.
  split; [vm_compute; reflexivity|].
  apply (convertOptions_rest_zero uint_overflow_sat (options_8N1 200 0)).
  vm_compute; reflexivity.
Defined.

(** * Further properties of the code *)

(** ** convertOptions: which options are accepted, and what is stored *)

(** Success bounds the rounded timeout, on every implementation below [2^57]
    and on those where [overflow_is_large] beyond. *)
Lemma convertOptions_Ok_nearest (uint_overflow : F64.float64 -> Z)
    (o : OpenOptions) (t : termios) :
  0 <= InterCharacterTimeout o ->
  InterCharacterTimeout o < 2 ^ 57 \/ overflow_is_large uint_overflow ->
  convertOptions uint_overflow o = Ok t ->
  nearest_100 (InterCharacterTimeout o) <= 25500 /\
  InterCharacterTimeout o <= 25549 /\
  (MinimumReadSize o = 0 -> 100 <= nearest_100 (InterCharacterTimeout o)).
Proof.
  intros H0 Hovf Hok. pose proof Hok as Hinv.
  apply convertOptions_Ok_inv in Hinv. cbv zeta in Hinv.
  destruct Hinv as (Hmin & Hmax & _).
  assert (Hr : nearest_100 (InterCharacterTimeout o) <= 25500).
  { destruct (Z.le_gt_cases (nearest_100 (InterCharacterTimeout o)) 25500)
      as [H|H]; [exact H|].
    pose proof (vtime_of_over uint_overflow _ Hovf H0 ltac:(lia)). lia. }
  pose proof (nearest_100_spec (InterCharacterTimeout o)) as [_ Hn].
  split; [exact Hr|]. split; [lia|].
  intros Hz. rewrite vtime_of_small in Hmin by lia. auto.
Qed.

(** X1: for a non-negative timeout (below [2^57], or on an implementation
    where [overflow_is_large]), [convertOptions] succeeds exactly when the
    timeout is at most 25549, is at least 50 if [MinimumReadSize] is zero,
    and the baud rate, data bits, stop bits and parity mode are each one of
    the values of their switch. *)
Theorem convertOptions_succeeds_iff (uint_overflow : F64.float64 -> Z)
    (o : OpenOptions) :
  0 <= InterCharacterTimeout o ->
  InterCharacterTimeout o < 2 ^ 57 \/ overflow_is_large uint_overflow ->
  (is_Ok (convertOptions uint_overflow o) = true <->
   InterCharacterTimeout o <= 25549 /\
   (MinimumReadSize o = 0 -> 50 <= InterCharacterTimeout o) /\
   In (BaudRate o) baud_rates /\
   In (DataBits o) [5; 6; 7; 8] /\
   In (StopBits o) [1; 2] /\
   In (ParityMode_of o) [PARITY_NONE; PARITY_ODD; PARITY_EVEN]).
Proof.
  intros H0 Hovf. split.
  - destruct (convertOptions uint_overflow o) as [t|e] eqn:E; [intros _|discriminate].
    destruct (convertOptions_Ok_nearest uint_overflow o t H0 Hovf E) as (Hr & Hle & Hmin).
    destruct (convertOptions_Ok_valid uint_overflow o t E) as (Hb & Hd & Hs & Hp).
    split; [exact Hle|]. split; [|tauto].
    intros Hz. specialize (Hmin Hz).
    pose proof (nearest_100_spec (InterCharacterTimeout o)) as [_ Hn]. lia.
  - intros (Hle & Hmin & Hb & Hd & Hs & Hp).
    assert (Ht : timing_accepted o) by (apply timing_accepted_intro; [lia|exact Hmin]).
    destruct (convertOptions_all_valid uint_overflow o Ht Hb Hd Hs Hp)
      as (cs & sb & pf & _ & _ & _ & ->).
    reflexivity.
Qed.

Lemma convertOptions_succeeds_iff_witness :
  is_Ok (convertOptions uint_overflow_sat (options_8N1 25549 1)) = true /\
  is_Ok (convertOptions uint_overflow_sat (options_8N1 25550 1)) = false.
Proof.
  split.
  - apply (convertOptions_succeeds_iff uint_overflow_sat (options_8N1 25549 1));
      [cbn; lia|left; cbn; lia|].
    cbn [options_8N1 InterCharacterTimeout MinimumReadSize BaudRate DataBits
         StopBits ParityMode_of In baud_rates].
    repeat split; try lia; tauto.
  - apply not_true_is_false. intros H.
    apply (convertOptions_succeeds_iff uint_overflow_sat (options_8N1 25550 1)) in H;
      [|cbn; lia|left; cbn; lia].
    cbn [options_8N1 InterCharacterTimeout] in H. lia.
Defined.

(** X2: when [convertOptions] succeeds, the TIME slot holds a number of
    tenths between 0 and 255 that is within 50 milliseconds of the timeout
    asked for. *)
Theorem convertOptions_timeout_accuracy (uint_overflow : F64.float64 -> Z)
    (o : OpenOptions) (t : termios) :
  0 <= InterCharacterTimeout o ->
  InterCharacterTimeout o < 2 ^ 57 \/ overflow_is_large uint_overflow ->
  convertOptions uint_overflow o = Ok t ->
  exists tenths,
    c_cc t !! Z.to_nat kVTIME = Some tenths /\ 0 <= tenths <= 255 /\
    100 * tenths - 50 <= InterCharacterTimeout o < 100 * tenths + 50.
Proof.
  intros H0 Hovf Hok.
  destruct (convertOptions_Ok_nearest uint_overflow o t H0 Hovf Hok) as (Hr & Hle & _).
  exists (nearest_100 (InterCharacterTimeout o) / 100).
  split; [apply (convertOptions_Ok_TIME uint_overflow); assumption|].
  pose proof (nearest_100_spec (InterCharacterTimeout o)) as [_ Hn].
  pose proof (nearest_100_nonneg _ H0) as Hnn.
  assert (E : 100 * (nearest_100 (InterCharacterTimeout o) / 100)
              = nearest_100 (InterCharacterTimeout o)).
  { unfold nearest_100. set (q := (InterCharacterTimeout o + 50) / 100).
    rewrite (Z.mul_comm 100 q), Z.div_mul by lia. lia. }
  rewrite E. split; [|exact Hn].
  split; [apply Z.div_pos; lia|apply Z.div_le_upper_bound; lia].
Qed.

Lemma convertOptions_timeout_accuracy_witness :
  convertOptions uint_overflow_sat (options_8N1 1234 1)
    = Ok (assemble 1200 1 9600 kCS8 0 0) /\
  exists tenths,
    c_cc (assemble 1200 1 9600 kCS8 0 0) !! Z.to_nat kVTIME = Some tenths /\
    0 <= tenths <= 255 /\ 100 * tenths - 50 <= 1234 < 100 * tenths + 50.
Proof.
  split; [vm_compute; reflexivity|].
  apply (convertOptions_timeout_accuracy uint_overflow_sat (options_8N1 1234 1));
    [cbn; lia|left; cbn; lia|vm_compute; reflexivity].
Defined.

(** X3: whenever [convertOptions] succeeds with [MinimumReadSize] zero, the
    TIME slot is between 1 and 255; and with [MinimumReadSize] below 256 the
    structure never has both the MIN and the TIME slot at zero.  This holds
    whatever the implementation makes of an out-of-range [uint(f)]. *)
Theorem convertOptions_read_returns (uint_overflow : F64.float64 -> Z)
    (o : OpenOptions) (t : termios) :
  convertOptions uint_overflow o = Ok t ->
  (MinimumReadSize o = 0 ->
   exists tenths, c_cc t !! Z.to_nat kVTIME = Some tenths /\ 1 <= tenths <= 255) /\
  (0 <= MinimumReadSize o < 256 ->
   ~ (c_cc t !! Z.to_nat kVMIN = Some 0 /\ c_cc t !! Z.to_nat kVTIME = Some 0)).
Proof.
  intros Hok. apply convertOptions_Ok_inv in Hok. cbv zeta in Hok.
  destruct Hok as (Hmin & Hmax & _ & cs & sb & pf & _ & _ & _ & ->).
  set (vtime := vtime_of uint_overflow (InterCharacterTimeout o)) in *.
  assert (Htime : MinimumReadSize o = 0 ->
                  cc_t (vtime / 100) = vtime / 100 /\ 1 <= vtime / 100 <= 255).
  { intros Hz. specialize (Hmin Hz).
    split; [apply cc_t_tenths; lia|].
    split; [apply Z.div_le_lower_bound; lia|apply Z.div_le_upper_bound; lia]. }
  rewrite assemble_cc_VTIME, assemble_cc_VMIN. split.
  - intros Hz. destruct (Htime Hz) as [E Hb]. exists (vtime / 100).
    rewrite E. split; [reflexivity|exact Hb].
  - intros Hv [Hm Ht]. injection Hm as Hm. injection Ht as Ht.
    unfold cc_t in Hm. rewrite Z.mod_small in Hm by (change (2 ^ 8) with 256; lia).
    destruct (Htime Hm) as [E Hb]. lia.
Qed.

Lemma convertOptions_read_returns_witness :
  convertOptions uint_overflow_sat (options_8N1 70 0)
    = Ok (assemble 100 0 9600 kCS8 0 0) /\
  (exists tenths,
     c_cc (assemble 100 0 9600 kCS8 0 0) !! Z.to_nat kVTIME = Some tenths /\
     1 <= tenths <= 255) /\
  ~ (c_cc (assemble 100 0 9600 kCS8 0 0) !! Z.to_nat kVMIN = Some 0 /\
     c_cc (assemble 100 0 9600 kCS8 0 0) !! Z.to_nat kVTIME = Some 0).
Proof.
  split; [vm_compute; reflexivity|].
  destruct (convertOptions_read_returns uint_overflow_sat (options_8N1 70 0)
              (assemble 100 0 9600 kCS8 0 0)) as [H1 H2];
    [vm_compute; reflexivity|].
  split; [apply H1; reflexivity|apply H2; cbn; lia].
Defined.

(** X4: whenever [convertOptions] succeeds, the MIN slot holds
    [MinimumReadSize] modulo 256; it holds [MinimumReadSize] itself exactly
    when that is below 256. *)
Theorem convertOptions_MIN_slot (uint_overflow : F64.float64 -> Z)
    (o : OpenOptions) (t : termios) :
  0 <= MinimumReadSize o ->
  convertOptions uint_overflow o = Ok t ->
  c_cc t !! Z.to_nat kVMIN = Some (MinimumReadSize o mod 256) /\
  (c_cc t !! Z.to_nat kVMIN = Some (MinimumReadSize o) <-> MinimumReadSize o < 256).
Proof.
  intros H0 Hok. pose proof (convertOptions_Ok_MIN uint_overflow o t Hok) as E.
  change (2 ^ 8) with 256 in E. split; [exact E|]. rewrite E.
  pose proof (Z.mod_pos_bound (MinimumReadSize o) 256 ltac:(lia)).
  split.
  - intros [= Hm]. lia.
  - intros Hlt. rewrite Z.mod_small by lia. reflexivity.
Qed.

Lemma convertOptions_MIN_slot_witness :
  convertOptions uint_overflow_sat (options_8N1 0 300)
    = Ok (assemble 0 300 9600 kCS8 0 0) /\
  c_cc (assemble 0 300 9600 kCS8 0 0) !! Z.to_nat kVMIN = Some (300 mod 256) /\
  (c_cc (assemble 0 300 9600 kCS8 0 0) !! Z.to_nat kVMIN = Some 300 <-> 300 < 256).
Proof.
  split; [vm_compute; reflexivity|].
  apply (convertOptions_MIN_slot uint_overflow_sat (options_8N1 0 300));
    [cbn; lia|vm_compute; reflexivity].
Defined.

(** X5: whenever [convertOptions] succeeds, the control-flags word is the sum
    of [kCLOCAL], [kCREAD], [kCS6] times the number of data bits above 5,
    [kCSTOPB] for a second stop bit, and the parity flags of the mode; no bit
    outside these flags is set. *)
Theorem convertOptions_cflag_value (uint_overflow : F64.float64 -> Z)
    (o : OpenOptions) (t : termios) :
  convertOptions uint_overflow o = Ok t ->
  c_cflag t =
    kCLOCAL + kCREAD + kCS6 * (DataBits o - 5) + kCSTOPB * (StopBits o - 1)
    + match ParityMode_of o with
      | PARITY_ODD => kPARENB + kPARODD
      | PARITY_EVEN => kPARENB
      | _ => 0
      end /\
  Z.land (c_cflag t)
         (Z.lnot (kCLOCAL + kCREAD + kCS8 + kCSTOPB + kPARENB + kPARODD)) = 0.
Proof.
  intros Hok. apply convertOptions_Ok_inv in Hok. cbv zeta in Hok.
  destruct Hok as (_ & _ & _ & cs & sb & pf & Hcs & Hsb & Hpf & ->).
  cbn [assemble c_cflag].
  pose proof (data_bits_flag_valid o cs Hcs) as Hd.
  pose proof (stop_bits_flag_valid o sb Hsb) as Hs.
  unfold valid_data_bits, valid_stop_bits in Hd, Hs. cbn [In] in Hd, Hs.
  destruct Hd as [Ed|[Ed|[Ed|[Ed|[]]]]]; rewrite <- Ed in *; injection Hcs as <-;
    destruct Hs as [Es|[Es|[]]]; rewrite <- Es in *; injection Hsb as <-;
    destruct (ParityMode_of o); try discriminate Hpf; injection Hpf as <-;
    split; reflexivity.
Qed.

Lemma convertOptions_cflag_value_witness :
  convertOptions uint_overflow_sat
    (mk_OpenOptions "/dev/cu.usbserial" 19200 7 2 PARITY_EVEN 0 1)
    = Ok (assemble 0 1 19200 kCS7 kCSTOPB kPARENB) /\
  c_cflag (assemble 0 1 19200 kCS7 kCSTOPB kPARENB) =
    kCLOCAL + kCREAD + kCS6 * (7 - 5) + kCSTOPB * (2 - 1) + kPARENB /\
  Z.land (c_cflag (assemble 0 1 19200 kCS7 kCSTOPB kPARENB))
         (Z.lnot (kCLOCAL + kCREAD + kCS8 + kCSTOPB + kPARENB + kPARODD)) = 0.
Proof.
  split; [vm_compute; reflexivity|].
  apply (convertOptions_cflag_value uint_overflow_sat
           (mk_OpenOptions "/dev/cu.usbserial" 19200 7 2 PARITY_EVEN 0 1)).
  vm_compute; reflexivity.
Defined.

(** X6: [convertOptions] sees a timeout only through its rounding: two
    options with timeouts below 65536 that round to the same multiple of 100
    and with the same other numeric fields and parity mode convert alike,
    whatever their port names. *)
Theorem convertOptions_timeout_quantized (uint_overflow : F64.float64 -> Z)
    (o1 o2 : OpenOptions) :
  0 <= InterCharacterTimeout o1 < 65536 ->
  0 <= InterCharacterTimeout o2 < 65536 ->
  nearest_100 (InterCharacterTimeout o1) = nearest_100 (InterCharacterTimeout o2) ->
  MinimumReadSize o1 = MinimumReadSize o2 ->
  BaudRate o1 = BaudRate o2 -> DataBits o1 = DataBits o2 ->
  StopBits o1 = StopBits o2 -> ParityMode_of o1 = ParityMode_of o2 ->
  convertOptions uint_overflow o1 = convertOptions uint_overflow o2.
Proof.
  intros H1 H2 Hr Hm Hb Hd Hs Hp.
  rewrite !convertOptions_steps. cbv zeta.
  rewrite !vtime_of_small by assumption.
  rewrite Hr, Hm, Hb, Hd, Hs, Hp. reflexivity.
Qed.

Lemma convertOptions_timeout_quantized_witness :
  convertOptions uint_overflow_sat (options_8N1 50 0)
  = convertOptions uint_overflow_sat
      (mk_OpenOptions "/dev/cu.modem" 9600 8 1 PARITY_NONE 149 0).
Proof.
  apply (convertOptions_timeout_quantized uint_overflow_sat (options_8N1 50 0)
           (mk_OpenOptions "/dev/cu.modem" 9600 8 1 PARITY_NONE 149 0));
    first [reflexivity | cbn; lia].
Defined.

(** X7: whenever [convertOptions] succeeds, every field of the structure
    fits its C type: the control characters are bytes, the control flags
    fit 16 bits, and both speeds are the baud rate, one of the fixed set. *)
Theorem convertOptions_fits_types (uint_overflow : F64.float64 -> Z)
    (o : OpenOptions) (t : termios) :
  convertOptions uint_overflow o = Ok t ->
  Forall (fun c => 0 <= c < 2 ^ 8) (c_cc t) /\
  0 <= c_cflag t < 2 ^ 16 /\
  c_ispeed t = BaudRate o /\ c_ospeed t = BaudRate o /\
  50 <= BaudRate o <= 230400.
Proof.
  intros Hok. apply convertOptions_Ok_inv in Hok. cbv zeta in Hok.
  destruct Hok as (_ & _ & Hb & cs & sb & pf & Hcs & Hsb & Hpf & ->).
  split; [|split; [|split; [|split]]].
  - cbn [assemble c_cc].
    assert (Hcc : forall x, 0 <= cc_t x < 2 ^ 8)
      by (intros x; apply Z.mod_pos_bound; reflexivity).
    repeat (apply Forall_cons; split; [first [apply Hcc | split; [lia|reflexivity]]|]).
    apply Forall_nil_2.
  - cbn [assemble c_cflag].
    apply data_bits_flag_Some in Hcs. apply stop_bits_flag_Some in Hsb.
    apply parity_flags_Some in Hpf. cbn [In] in Hcs, Hsb, Hpf.
    destruct Hcs as [<-|[<-|[<-|[<-|[]]]]]; destruct Hsb as [<-|[<-|[]]];
      destruct Hpf as [<-|[<-|[<-|[]]]]; split; (discriminate || reflexivity).
  - cbn [assemble c_ispeed]. apply speed_t_baud, Hb.
  - cbn [assemble c_ospeed]. apply speed_t_baud, Hb.
  - unfold baud_rates in Hb. cbn [In] in Hb.
    repeat (destruct Hb as [<-|Hb]; [lia|]). contradiction.
Qed.

Lemma convertOptions_fits_types_witness :
  convertOptions uint_overflow_sat (options_8N1 25549 255)
    = Ok (assemble 25500 255 9600 kCS8 0 0) /\
  Forall (fun c => 0 <= c < 2 ^ 8) (c_cc (assemble 25500 255 9600 kCS8 0 0)) /\
  0 <= c_cflag (assemble 25500 255 9600 kCS8 0 0) < 2 ^ 16 /\
  c_ispeed (assemble 25500 255 9600 kCS8 0 0) = 9600 /\
  c_ospeed (assemble 25500 255 9600 kCS8 0 0) = 9600 /\
  50 <= 9600 <= 230400.
Proof.
  split; [vm_compute; reflexivity|].
  apply (convertOptions_fits_types uint_overflow_sat (options_8N1 25549 255)).
  vm_compute; reflexivity.
Defined.

(** ** setTermios and openInternal: calls made and errors returned *)

(** X8: [setTermios] makes one system call, the [ioctl] with request
    [kTIOCSETA] on the structure it was given.  It returns nil exactly when
    the kernel answers with [errno] and [r1] both zero; a non-zero [errno]
    comes back as a [SyscallError] whatever [r1] is, and a non-zero [r1]
    alone as the unknown-error message. *)
Theorem setTermios_outcome (K : kernel) (fd : Z) (src : termios) (tr : list syscall) :
  let r1 := fst (k_ioctl K fd kTIOCSETA src) in
  let errno := snd (k_ioctl K fd kTIOCSETA src) in
  snd (setTermios K fd src tr) = tr ++ [SysIoctl fd kTIOCSETA src (r1, errno)] /\
  (fst (setTermios K fd src tr) = None <-> errno = 0 /\ r1 = 0) /\
  (errno <> 0 ->
   fst (setTermios K fd src tr) = Some (SyscallError "SYS_IOCTL" errno)) /\
  (errno = 0 -> r1 <> 0 ->
   fst (setTermios K fd src tr) = Some (errors_New "Unknown error from SYS_IOCTL.")).
Proof.
  cbv zeta. unfold setTermios, io_bind, io_call, io_ret, os_NewSyscallError.
  destruct (k_ioctl K fd kTIOCSETA src) as [r1 errno]. cbn [fst snd].
  destruct (Z.eqb_spec errno 0) as [->|Herr].
  - destruct (Z.eqb_spec r1 0) as [->|Hr1]; cbn [negb fst snd].
    + split; [reflexivity|]. split; [tauto|]. split; [congruence|congruence].
    + split; [reflexivity|]. split; [|split; [congruence|reflexivity]].
      split; [discriminate|tauto].
  - cbn [fst snd]. split; [reflexivity|]. split; [|split; [reflexivity|congruence]].
    split; [discriminate|tauto].
Qed.

Lemma setTermios_outcome_witness :
  fst (setTermios kernel_ioctl_fails 3 termios_zero [])
    = Some (SyscallError "SYS_IOCTL" 25) /\
  fst (setTermios kernel_fcntl_fails 3 termios_zero []) = None.
Proof.
  split.
  - apply (setTermios_outcome kernel_ioctl_fails 3 termios_zero []). discriminate.
  - apply (setTermios_outcome kernel_fcntl_fails 3 termios_zero []).
    split; reflexivity.
Defined.

(** [setTermios] returns nil exactly on a zero answer. *)
Lemma setTermios_result (K : kernel) (fd : Z) (src : termios) (tr : list syscall) :
  fst (setTermios K fd src tr) = None <->
  snd (k_ioctl K fd kTIOCSETA src) = 0 /\ fst (k_ioctl K fd kTIOCSETA src) = 0.
Proof.
  unfold setTermios, io_bind, io_call, io_ret, os_NewSyscallError.
  destruct (k_ioctl K fd kTIOCSETA src) as [r1 errno]. cbn [fst snd].
  destruct (Z.eqb_spec errno 0) as [->|Herr]; cbn [fst].
  - destruct (Z.eqb_spec r1 0) as [->|Hr1]; cbn [negb fst].
    + tauto.
    + split; [discriminate|tauto].
  - split; [discriminate|tauto].
Qed.

(** [openInternal], step by step. *)
Lemma openInternal_steps (uint_overflow : F64.float64 -> Z) (K : kernel)
    (o : OpenOptions) (tr0 : list syscall) :
  let flags := [O_RDWR; O_NOCTTY; O_NONBLOCK] in
  openInternal uint_overflow K o tr0 =
    match k_open K (PortName o) flags perm_0600 with
    | Err err => (Err err, tr0 ++ [SysOpen (PortName o) flags perm_0600 (Err err)])
    | Ok fd =>
        let tr2 := tr0 ++ [SysOpen (PortName o) flags perm_0600 (Ok fd);
                           SysFcntlSetfl fd 0 (k_fcntl K fd 0)] in
        if negb (snd (k_fcntl K fd 0) =? 0)
        then (Err (SyscallError "SYS_IOCTL" (snd (k_fcntl K fd 0))), tr2)
        else if negb (fst (k_fcntl K fd 0) =? 0)
        then (Err (errors_New "Unknown error from SYS_FCNTL."), tr2)
        else
          match convertOptions uint_overflow o with
          | Err err => (Err err, tr2)
          | Ok t =>
              (match fst (setTermios K fd t tr2) with
               | Some err => Err err
               | None => Ok (mk_File fd)
               end,
               tr2 ++ [SysIoctl fd kTIOCSETA t (k_ioctl K fd kTIOCSETA t)])
          end
    end.
Proof.
  cbv zeta.
  unfold openInternal, os_OpenFile, setTermios, io_bind, io_call, io_ret,
    os_NewSyscallError.
  destruct (k_open K (PortName o) _ perm_0600) as [fd|err];
    cbn [result_bind Fd]; [|reflexivity].
  destruct (k_fcntl K fd 0) as [r1 errno]. cbn [fst snd].
  rewrite <- app_assoc. cbn [app].
  destruct (errno =? 0); cbn [negb]; [|reflexivity].
  destruct (r1 =? 0); cbn [negb]; [|reflexivity].
  destruct (convertOptions uint_overflow o) as [t|err]; [|reflexivity].
  destruct (k_ioctl K fd kTIOCSETA t) as [r1' errno']. cbn [fst snd].
  destruct (errno' =? 0); cbn [negb]; [|reflexivity].
  destruct (r1' =? 0); reflexivity.
Qed.

(** X9: [openInternal] returns a file exactly when the device opens, the
    [fcntl] call and the [ioctl] call are both answered with zero [r1] and
    zero [errno], and the options convert.  It has then made three calls:
    [open], [fcntl] with argument 0, and [ioctl] with [kTIOCSETA] on the
    structure [convertOptions] returned; the file's descriptor is the one
    [open] answered, and it is open. *)
Theorem openInternal_succeeds_iff (uint_overflow : F64.float64 -> Z) (K : kernel)
    (o : OpenOptions) (tr0 : list syscall) (file : File) :
  (fst (openInternal uint_overflow K o tr0) = Ok file <->
   exists t, activation_succeeds uint_overflow K o (Fd file) t) /\
  (forall t, activation_succeeds uint_overflow K o (Fd file) t ->
   let calls := [SysOpen (PortName o) [O_RDWR; O_NOCTTY; O_NONBLOCK] perm_0600
                         (Ok (Fd file));
                 SysFcntlSetfl (Fd file) 0 (0, 0);
                 SysIoctl (Fd file) kTIOCSETA t (0, 0)] in
   snd (openInternal uint_overflow K o tr0) = tr0 ++ calls /\
   Fd file ∈ open_descriptors calls).
Proof.
  pose proof (openInternal_steps uint_overflow K o tr0) as E. cbv zeta in E.
  unfold activation_succeeds. split; [split|].
  - rewrite E.
    destruct (k_open K (PortName o) _ perm_0600) as [fd|err] eqn:Eo; [|discriminate].
    destruct (k_fcntl K fd 0) as [r1 errno] eqn:Ef. cbn [fst snd].
    destruct (Z.eqb_spec errno 0) as [->|Herr]; cbn [negb]; [|discriminate].
    destruct (Z.eqb_spec r1 0) as [->|Hr1]; cbn [negb]; [|discriminate].
    destruct (convertOptions uint_overflow o) as [t|err] eqn:Ec; [|discriminate].
    cbn [fst].
    pose proof (setTermios_result K fd t
                  (tr0 ++ [SysOpen (PortName o) [O_RDWR; O_NOCTTY; O_NONBLOCK]
                                   perm_0600 (Ok fd);
                           SysFcntlSetfl fd 0 (0, 0)])) as [Hnone _].
    destruct (fst (setTermios K fd t _)) as [err|]; [discriminate|].
    intros [= <-]. cbn [Fd]. exists t.
    destruct (Hnone eq_refl) as [H1 H2].
    destruct (k_ioctl K fd kTIOCSETA t) as [r1' errno'].
    cbn [fst snd] in H1, H2. subst. repeat split; assumption.
  - intros (t & Ho & Hf & Hc & Hi). rewrite E, Ho, Hf, Hc. cbn [fst snd].
    change (negb (0 =? 0)) with false. cbv iota.
    pose proof (setTermios_result K (Fd file) t
                  (tr0 ++ [SysOpen (PortName o) [O_RDWR; O_NOCTTY; O_NONBLOCK]
                                   perm_0600 (Ok (Fd file));
                           SysFcntlSetfl (Fd file) 0 (0, 0)])) as [_ Hnone].
    rewrite Hnone by (rewrite Hi; split; reflexivity).
    destruct file; reflexivity.
  - intros t (Ho & Hf & Hc & Hi). cbv zeta. split.
    + rewrite E, Ho, Hf, Hc, Hi. cbn [fst snd].
      change (negb (0 =? 0)) with false. cbv iota. cbn [snd].
      rewrite <- app_assoc. reflexivity.
    + unfold open_descriptors. cbn [foldl track]. set_solver.
Qed.

Lemma openInternal_succeeds_iff_witness :
  fst (openInternal uint_overflow_sat kernel_accepts (options_8N1 0 1) [])
    = Ok (mk_File 3) /\
  snd (openInternal uint_overflow_sat kernel_accepts (options_8N1 0 1) [])
    = [] ++ [SysOpen "/dev/cu.usbserial" [O_RDWR; O_NOCTTY; O_NONBLOCK] perm_0600 (Ok 3);
             SysFcntlSetfl 3 0 (0, 0);
             SysIoctl 3 kTIOCSETA (assemble 0 1 9600 kCS8 0 0) (0, 0)].
Proof.
  assert (H : activation_succeeds uint_overflow_sat kernel_accepts (options_8N1 0 1)
                3 (assemble 0 1 9600 kCS8 0 0))
    by (repeat split; vm_compute; reflexivity).
  split.
  - apply (openInternal_succeeds_iff uint_overflow_sat kernel_accepts
             (options_8N1 0 1) [] (mk_File 3)).
    exists (assemble 0 1 9600 kCS8 0 0). exact H.
  - apply (openInternal_succeeds_iff uint_overflow_sat kernel_accepts
             (options_8N1 0 1) [] (mk_File 3)). exact H.
Defined.

(** X10: when [open] fails, [openInternal] returns its error as it is, and
    [open] is the only call it has made: no descriptor is open. *)
Theorem openInternal_open_failure (uint_overflow : F64.float64 -> Z) (K : kernel)
    (o : OpenOptions) (tr0 : list syscall) (err : error) :
  k_open K (PortName o) [O_RDWR; O_NOCTTY; O_NONBLOCK] perm_0600 = Err err ->
  let calls := [SysOpen (PortName o) [O_RDWR; O_NOCTTY; O_NONBLOCK] perm_0600
                        (Err err)] in
  openInternal uint_overflow K o tr0 = (Err err, tr0 ++ calls) /\
  open_descriptors calls = ∅.
Proof.
  intros Ho. cbv zeta.
  pose proof (openInternal_steps uint_overflow K o tr0) as E. cbv zeta in E.
  rewrite E, Ho. split; reflexivity.
Qed.

Lemma openInternal_open_failure_witness :
  openInternal uint_overflow_sat kernel_no_device (options_8N1 0 1) []
    = (Err (PathError "open" "/dev/cu.usbserial" 2),
       [] ++ [SysOpen "/dev/cu.usbserial" [O_RDWR; O_NOCTTY; O_NONBLOCK] perm_0600
                      (Err (PathError "open" "/dev/cu.usbserial" 2))]) /\
  open_descriptors
    [SysOpen "/dev/cu.usbserial" [O_RDWR; O_NOCTTY; O_NONBLOCK] perm_0600
             (Err (PathError "open" "/dev/cu.usbserial" 2))] = ∅.
Proof.
  apply (openInternal_open_failure uint_overflow_sat kernel_no_device
           (options_8N1 0 1) [] (PathError "open" "/dev/cu.usbserial" 2)).
  reflexivity.
Defined.

(** X11: when the device opens and the [fcntl] call is not answered with
    zeros, [openInternal] stops there, whatever the options are: it has made
    the two calls [open] and [fcntl] and no [ioctl].  A non-zero [errno] is
    returned as a [SyscallError] under the name "SYS_IOCTL", a non-zero [r1]
    alone as the unknown-error message of [fcntl]. *)
Theorem openInternal_mode_switch_failure (uint_overflow : F64.float64 -> Z)
    (K : kernel) (o : OpenOptions) (tr0 : list syscall) (fd : Z) :
  k_open K (PortName o) [O_RDWR; O_NOCTTY; O_NONBLOCK] perm_0600 = Ok fd ->
  k_fcntl K fd 0 <> (0, 0) ->
  let r1 := fst (k_fcntl K fd 0) in
  let errno := snd (k_fcntl K fd 0) in
  openInternal uint_overflow K o tr0 =
    (Err (if errno =? 0
          then errors_New "Unknown error from SYS_FCNTL."
          else SyscallError "SYS_IOCTL" errno),
     tr0 ++ [SysOpen (PortName o) [O_RDWR; O_NOCTTY; O_NONBLOCK] perm_0600 (Ok fd);
             SysFcntlSetfl fd 0 (r1, errno)]).
Proof.
  intros Ho Hf. cbv zeta.
  pose proof (openInternal_steps uint_overflow K o tr0) as E. cbv zeta in E.
  rewrite E, Ho. destruct (k_fcntl K fd 0) as [r1 errno]. cbn [fst snd].
  destruct (Z.eqb_spec errno 0) as [->|Herr]; cbn [negb]; [|reflexivity].
  destruct (Z.eqb_spec r1 0) as [->|Hr1]; cbn [negb]; [|reflexivity].
  contradiction Hf. reflexivity.
Qed.

Lemma openInternal_mode_switch_failure_witness :
  openInternal uint_overflow_sat kernel_fcntl_fails
      (mk_OpenOptions "/dev/cu.usbserial" 1 2 3 (PARITY_other 4) 5 6) []
    = (Err (SyscallError "SYS_IOCTL" 9),
       [] ++ [SysOpen "/dev/cu.usbserial" [O_RDWR; O_NOCTTY; O_NONBLOCK] perm_0600 (Ok 3);
              SysFcntlSetfl 3 0 (2 ^ 64 - 1, 9)]).
Proof.
  apply (openInternal_mode_switch_failure uint_overflow_sat kernel_fcntl_fails
           (mk_OpenOptions "/dev/cu.usbserial" 1 2 3 (PARITY_other 4) 5 6) [] 3).
  - reflexivity.
  - discriminate.
Defined.

(** X12: options that do not convert are found out only after the device has
    been opened and switched to blocking mode: [openInternal] then returns
    the error of [convertOptions] as it is, having made the two calls [open]
    and [fcntl] and no [ioctl]. *)
Theorem openInternal_invalid_options (uint_overflow : F64.float64 -> Z)
    (K : kernel) (o : OpenOptions) (tr0 : list syscall) (fd : Z) (e : error) :
  k_open K (PortName o) [O_RDWR; O_NOCTTY; O_NONBLOCK] perm_0600 = Ok fd ->
  k_fcntl K fd 0 = (0, 0) ->
  convertOptions uint_overflow o = Err e ->
  openInternal uint_overflow K o tr0 =
    (Err e,
     tr0 ++ [SysOpen (PortName o) [O_RDWR; O_NOCTTY; O_NONBLOCK] perm_0600 (Ok fd);
             SysFcntlSetfl fd 0 (0, 0)]).
Proof.
  intros Ho Hf Hc.
  pose proof (openInternal_steps uint_overflow K o tr0) as E. cbv zeta in E.
  rewrite E, Ho, Hf, Hc. reflexivity.
Qed.

Lemma openInternal_invalid_options_witness :
  openInternal uint_overflow_sat kernel_accepts
      (mk_OpenOptions "/dev/cu.usbserial" 9601 8 1 PARITY_NONE 0 1) []
    = (Err (errors_New msg_baud),
       [] ++ [SysOpen "/dev/cu.usbserial" [O_RDWR; O_NOCTTY; O_NONBLOCK] perm_0600 (Ok 3);
              SysFcntlSetfl 3 0 (0, 0)]).
Proof.
  apply (openInternal_invalid_options uint_overflow_sat kernel_accepts
           (mk_OpenOptions "/dev/cu.usbserial" 9601 8 1 PARITY_NONE 0 1) [] 3);
    vm_compute; reflexivity.
Defined.

(** X13: when the device opens, the [fcntl] call is answered with zeros and
    the options convert to [t], but the [ioctl] call is not answered with
    zeros, [openInternal] returns the error of [setTermios]: a [SyscallError]
    for a non-zero [errno], the unknown-error message otherwise.  It has made
    the three calls, the [ioctl] on [t]. *)
Theorem openInternal_apply_failure (uint_overflow : F64.float64 -> Z)
    (K : kernel) (o : OpenOptions) (tr0 : list syscall) (fd : Z) (t : termios) :
  k_open K (PortName o) [O_RDWR; O_NOCTTY; O_NONBLOCK] perm_0600 = Ok fd ->
  k_fcntl K fd 0 = (0, 0) ->
  convertOptions uint_overflow o = Ok t ->
  k_ioctl K fd kTIOCSETA t <> (0, 0) ->
  let r1 := fst (k_ioctl K fd kTIOCSETA t) in
  let errno := snd (k_ioctl K fd kTIOCSETA t) in
  openInternal uint_overflow K o tr0 =
    (Err (if errno =? 0
          then errors_New "Unknown error from SYS_IOCTL."
          else SyscallError "SYS_IOCTL" errno),
     tr0 ++ [SysOpen (PortName o) [O_RDWR; O_NOCTTY; O_NONBLOCK] perm_0600 (Ok fd);
             SysFcntlSetfl fd 0 (0, 0);
             SysIoctl fd kTIOCSETA t (r1, errno)]).
Proof.
  intros Ho Hf Hc Hi. cbv zeta.
  pose proof (openInternal_steps uint_overflow K o tr0) as E. cbv zeta in E.
  rewrite E, Ho, Hf, Hc. cbn [fst snd]. change (negb (0 =? 0)) with false. cbv iota.
  rewrite <- app_assoc. cbn [app].
  unfold setTermios, io_bind, io_call, io_ret, os_NewSyscallError.
  destruct (k_ioctl K fd kTIOCSETA t) as [r1 errno]. cbn [fst snd].
  destruct (Z.eqb_spec errno 0) as [->|Herr]; cbn [negb fst]; [|reflexivity].
  destruct (Z.eqb_spec r1 0) as [->|Hr1]; cbn [negb fst]; [|reflexivity].
  contradiction Hi. reflexivity.
Qed.

Lemma openInternal_apply_failure_witness :
  openInternal uint_overflow_sat kernel_ioctl_fails (options_8N1 0 1) []
    = (Err (SyscallError "SYS_IOCTL" 25),
       [] ++ [SysOpen "/dev/cu.usbserial" [O_RDWR; O_NOCTTY; O_NONBLOCK] perm_0600 (Ok 3);
              SysFcntlSetfl 3 0 (0, 0);
              SysIoctl 3 kTIOCSETA (assemble 0 1 9600 kCS8 0 0) (2 ^ 64 - 1, 25)]).
Proof.
  apply (openInternal_apply_failure uint_overflow_sat kernel_ioctl_fails
           (options_8N1 0 1) [] 3 (assemble 0 1 9600 kCS8 0 0));
    first [discriminate | vm_compute; reflexivity].
Defined.

(** ** Exact float64 results *)

Lemma shr_1_double (M : Z) :
  0 <= M ->
  shr_1 (Build_shr_record (2 * M) false false) = Build_shr_record M false false.
Proof. destruct M as [|q|q]; [reflexivity|reflexivity|lia]. Qed.

Lemma iter_pos_shr_1_exact (p : positive) :
  forall M, 0 <= M ->
    SpecFloat.iter_pos shr_1 p (Build_shr_record (M * 2 ^ Z.pos p) false false)
    = Build_shr_record M false false.
Proof.
  induction p as [p IH|p IH|]; intros M HM; cbn [SpecFloat.iter_pos].
  - replace (M * 2 ^ Z.pos p~1) with (2 * ((M * 2 ^ Z.pos p) * 2 ^ Z.pos p)).
    + assert (0 <= M * 2 ^ Z.pos p) by (apply Z.mul_nonneg_nonneg; lia).
      rewrite shr_1_double by (apply Z.mul_nonneg_nonneg; lia).
      rewrite IH by assumption. apply IH. assumption.
    + replace (Z.pos p~1) with (Z.pos p + Z.pos p + 1) by lia.
      rewrite !Z.pow_add_r by lia. change (2 ^ 1) with 2. ring.
  - replace (M * 2 ^ Z.pos p~0) with ((M * 2 ^ Z.pos p) * 2 ^ Z.pos p).
    + assert (0 <= M * 2 ^ Z.pos p) by (apply Z.mul_nonneg_nonneg; lia).
      rewrite IH by assumption. apply IH. assumption.
    + replace (Z.pos p~0) with (Z.pos p + Z.pos p) by lia.
      rewrite !Z.pow_add_r by lia. ring.
  - change (2 ^ 1) with 2. rewrite Z.mul_comm. apply shr_1_double. assumption.
Qed.

Lemma Zdigits2_mul_pow2 (M s : Z) :
  0 < M -> 0 <= s -> Zdigits2 (M * 2 ^ s) = Zdigits2 M + s.
Proof.
  intros HM Hs.
  assert (0 < M * 2 ^ s) by (apply Z.mul_pos_pos; [lia|apply Z.pow_pos_nonneg; lia]).
  destruct M as [|m|m]; try lia.
  destruct (Z.pos m * 2 ^ s) as [|q|q] eqn:E; try lia.
  rewrite !Zdigits2_log2, <- E, Z.log2_mul_pow2 by lia. lia.
Qed.

(** Rounding a mantissa whose [s] low bits are zero to an exponent [s]
    higher loses nothing. *)
Lemma binary_round_aux_exact (M ex s : Z) :
  0 < M -> 0 <= s ->
  fexp F64.prec F64.emax (Zdigits2 (M * 2 ^ s) + ex) = ex + s ->
  ex + s <= 971 ->
  binary_round_aux F64.prec F64.emax false (M * 2 ^ s) ex loc_Exact
  = S754_finite false (Z.to_pos M) (ex + s).
Proof.
  intros HM Hs Hf He.
  assert (H1 : shr_fexp F64.prec F64.emax (M * 2 ^ s) ex loc_Exact
               = (Build_shr_record M false false, ex + s)).
  { unfold shr_fexp. rewrite Hf. replace (ex + s - ex) with s by lia.
    cbn [shr_record_of_loc]. unfold shr. destruct s as [|p|p]; try lia.
    - rewrite Z.pow_0_r, Z.mul_1_r, Z.add_0_r. reflexivity.
    - rewrite iter_pos_shr_1_exact by lia. reflexivity. }
  assert (H2 : shr_fexp F64.prec F64.emax M (ex + s) loc_Exact
               = (Build_shr_record M false false, ex + s)).
  { unfold shr_fexp. rewrite Zdigits2_mul_pow2 in Hf by assumption.
    replace (Zdigits2 M + (ex + s)) with (Zdigits2 M + s + ex) by lia.
    rewrite Hf, Z.sub_diag. reflexivity. }
  unfold binary_round_aux. rewrite H1.
  cbn [shr_m loc_of_shr_record round_nearest_even]. rewrite H2. cbn [shr_m].
  destruct M as [|m|m]; try lia.
  replace (ex + s <=? F64.emax - F64.prec) with true
    by (symmetry; apply Z.leb_le; unfold F64.emax, F64.prec; lia).
  reflexivity.
Qed.

(** [float64(n)] is exact below [2^53]. *)
Lemma of_Z_exact (n : Z) :
  0 < n < 2 ^ 53 ->
  F64.of_Z n = S754_finite false (Z.to_pos (n * 2 ^ (52 - Z.log2 n))) (Z.log2 n - 52).
Proof.
  intros Hn. assert (Hl : 0 <= Z.log2 n < 53).
  { split; [apply Z.log2_nonneg|apply Z.log2_lt_pow2; lia]. }
  destruct n as [|p|p]; try lia.
  unfold F64.of_Z, binary_normalize, binary_round.
  destruct (shl_align p 0 _) as [mz ez] eqn:E.
  apply shl_align_spec in E. destruct E as [Em Ee].
  change (Z.pos (digits2_pos p)) with (Zdigits2 (Z.pos p)) in Ee.
  rewrite Zdigits2_log2 in Ee.
  assert (Hez : ez = Z.log2 (Z.pos p) - 52)
    by (rewrite Ee; unfold fexp, emin, F64.prec, F64.emax; lia).
  rewrite Z.shiftl_mul_pow2 in Em by lia.
  replace (0 - ez) with (52 - Z.log2 (Z.pos p)) in Em by lia.
  rewrite Em.
  pose proof (binary_round_aux_exact (Z.pos p * 2 ^ (52 - Z.log2 (Z.pos p))) ez 0) as Hx.
  rewrite Z.pow_0_r, Z.mul_1_r, Z.add_0_r in Hx. rewrite Hx; [rewrite Hez; reflexivity|..].
  - apply Z.mul_pos_pos; [lia|apply Z.pow_pos_nonneg; lia].
  - lia.
  - rewrite Zdigits2_mul_pow2 by lia. rewrite Zdigits2_log2.
    unfold fexp, emin, F64.prec, F64.emax. lia.
  - lia.
Qed.

Lemma binary_normalize_exact (M e s : Z) :
  0 < M -> 0 <= s ->
  fexp F64.prec F64.emax (Zdigits2 (M * 2 ^ s) + e) = e + s ->
  e + s <= 971 ->
  binary_normalize F64.prec F64.emax (M * 2 ^ s) e false
  = S754_finite false (Z.to_pos M) (e + s).
Proof.
  intros HM Hs Hf He.
  assert (Hpos : 0 < M * 2 ^ s)
    by (apply Z.mul_pos_pos; [lia|apply Z.pow_pos_nonneg; lia]).
  rewrite <- (binary_round_aux_exact M e s HM Hs Hf He).
  destruct (M * 2 ^ s) as [|p|p] eqn:E; try lia.
  unfold binary_normalize, binary_round.
  change (Z.pos (digits2_pos p)) with (Zdigits2 (Z.pos p)). rewrite Hf.
  unfold shl_align. destruct (e + s - e) as [|d|d] eqn:Ed; try lia; reflexivity.
Qed.

(** [x + 0.5] for a positive float [x] of exponent at least -53: the sum of
    the aligned mantissas, normalized. *)
Lemma add_c0_5_finite (m : positive) (e : Z) :
  -53 <= e ->
  F64.add (S754_finite false m e) F64.c0_5
  = binary_normalize F64.prec F64.emax (Z.pos m * 2 ^ (e + 53) + 2 ^ 52) (-53) false.
Proof.
  intros He. unfold F64.add, F64.c0_5, SFadd.
  replace (Z.min e (-53)) with (-53) by lia.
  destruct (shl_align m e (-53)) as [a ea] eqn:Ea.
  apply shl_align_spec in Ea. destruct Ea as [Ha Hea].
  replace ea with (-53) in Ha by lia.
  rewrite Z.shiftl_mul_pow2 in Ha by lia.
  replace (e - -53) with (e + 53) in Ha by lia.
  cbn [fst cond_Zopp]. rewrite Ha. reflexivity.
Qed.

(** [float64(n) + 0.5] is exact for [0 < n < 2^52]. *)
Lemma of_Z_plus_half (n : Z) :
  0 < n < 2 ^ 52 ->
  F64.add (F64.of_Z n) F64.c0_5
  = S754_finite false (Z.to_pos ((2 * n + 1) * 2 ^ (51 - Z.log2 n))) (Z.log2 n - 52).
Proof.
  intros Hn. assert (Hl : 0 <= Z.log2 n < 52).
  { split; [apply Z.log2_nonneg|apply Z.log2_lt_pow2; lia]. }
  rewrite of_Z_exact by (change (2 ^ 53) with (2 * 2 ^ 52); lia).
  rewrite add_c0_5_finite by lia.
  assert (Hp : 0 < n * 2 ^ (52 - Z.log2 n))
    by (apply Z.mul_pos_pos; [lia|apply Z.pow_pos_nonneg; lia]).
  rewrite Z2Pos.id by assumption.
  replace (n * 2 ^ (52 - Z.log2 n) * 2 ^ (Z.log2 n - 52 + 53) + 2 ^ 52)
    with (((2 * n + 1) * 2 ^ (51 - Z.log2 n)) * 2 ^ (Z.log2 n + 1)).
  - replace (Z.log2 n - 52) with (-53 + (Z.log2 n + 1)) by lia.
    assert (HM : 0 < (2 * n + 1) * 2 ^ (51 - Z.log2 n))
      by (apply Z.mul_pos_pos; [lia|apply Z.pow_pos_nonneg; lia]).
    apply binary_normalize_exact; [assumption|lia| |lia].
    rewrite Zdigits2_mul_pow2 by lia.
    rewrite Zdigits2_mul_pow2 by lia.
    destruct (2 * n + 1) as [|q|q] eqn:Eq; try lia.
    rewrite Zdigits2_log2, <- Eq, Z.log2_succ_double by lia.
    unfold fexp, emin, F64.prec, F64.emax. lia.
  - rewrite <- !Z.mul_assoc, <- !Z.pow_add_r by lia.
    replace (51 - Z.log2 n + (Z.log2 n + 1)) with 52 by lia.
    replace (52 - Z.log2 n + (Z.log2 n - 52 + 53)) with 53 by lia.
    change (2 ^ 53) with (2 * 2 ^ 52). ring.
Qed.

(** [math.Floor] of a float that is an integer already. *)
Lemma floor_of_Z (n : Z) : 0 <= n < 2 ^ 53 -> F64.floor (F64.of_Z n) = F64.of_Z n.
Proof.
  intros Hn. destruct (Z.eq_dec n 0) as [->|Hne]; [reflexivity|].
  assert (Hl : 0 <= Z.log2 n < 53).
  { split; [apply Z.log2_nonneg|apply Z.log2_lt_pow2; lia]. }
  rewrite of_Z_exact at 1 by lia. unfold F64.floor.
  destruct (0 <=? Z.log2 n - 52) eqn:E.
  - rewrite of_Z_exact by lia. reflexivity.
  - apply Z.leb_gt in E. unfold F64.floorZ, cond_Zopp.
    assert (Hp : 0 < n * 2 ^ (52 - Z.log2 n))
      by (apply Z.mul_pos_pos; [lia|apply Z.pow_pos_nonneg; lia]).
    rewrite Z2Pos.id by assumption.
    rewrite Z.shiftl_div_pow2 by lia.
    replace (- (Z.log2 n - 52)) with (52 - Z.log2 n) by lia.
    rewrite Z.div_mul by (apply Z.pow_nonzero; lia). reflexivity.
Qed.

(** X14: [round] leaves the float64 of an integer from 0 up to [2^52] as it
    is. *)
Theorem round_integer (n : Z) :
  0 <= n < 2 ^ 52 -> round (F64.of_Z n) = F64.of_Z n.
Proof.
  intros Hn. destruct (Z.eq_dec n 0) as [->|Hne]; [reflexivity|].
  assert (Hl : 0 <= Z.log2 n < 52).
  { split; [apply Z.log2_nonneg|apply Z.log2_lt_pow2; lia]. }
  unfold round. rewrite of_Z_plus_half by lia. unfold F64.floor.
  replace (0 <=? Z.log2 n - 52) with false by (symmetry; apply Z.leb_gt; lia).
  unfold F64.floorZ, cond_Zopp.
  assert (HM : 0 < (2 * n + 1) * 2 ^ (51 - Z.log2 n))
    by (apply Z.mul_pos_pos; [lia|apply Z.pow_pos_nonneg; lia]).
  rewrite Z2Pos.id by assumption.
  rewrite Z.shiftl_div_pow2 by lia.
  replace (- (Z.log2 n - 52)) with (Z.succ (51 - Z.log2 n)) by lia.
  rewrite Z.pow_succ_r by lia.
  rewrite Z.div_mul_cancel_r by (try apply Z.pow_nonzero; lia).
  replace ((2 * n + 1) / 2) with n
    by (apply (Z.div_unique (2 * n + 1) 2 n 1); lia).
  reflexivity.
Qed.

Lemma round_integer_witness :
  0 <= 255 < 2 ^ 52 /\ round (F64.of_Z 255) = F64.of_Z 255.
Proof.
  assert (H : 0 <= 255 < 2 ^ 52) by (split; [discriminate|reflexivity]).
  split; [exact H|]. apply (round_integer 255). exact H.
Defined.

(** X15: [round] rounds a half up: the float64 of an integer [n] from 0
    below [2^52 - 1], plus one half, is rounded to [n + 1]. *)
Theorem round_half_up (n : Z) :
  0 <= n < 2 ^ 52 - 1 ->
  round (F64.add (F64.of_Z n) F64.c0_5) = F64.of_Z (n + 1).
Proof.
  intros Hn. destruct (Z.eq_dec n 0) as [->|Hne]; [vm_compute; reflexivity|].
  assert (Hl : 0 <= Z.log2 n < 52).
  { split; [apply Z.log2_nonneg|apply Z.log2_lt_pow2; lia]. }
  assert (Hl' : 0 <= Z.log2 (n + 1) < 52).
  { split; [apply Z.log2_nonneg|apply Z.log2_lt_pow2; lia]. }
  unfold round. rewrite of_Z_plus_half by lia. rewrite add_c0_5_finite by lia.
  assert (HM : 0 < (2 * n + 1) * 2 ^ (51 - Z.log2 n))
    by (apply Z.mul_pos_pos; [lia|apply Z.pow_pos_nonneg; lia]).
  rewrite Z2Pos.id by assumption.
  replace ((2 * n + 1) * 2 ^ (51 - Z.log2 n) * 2 ^ (Z.log2 n - 52 + 53) + 2 ^ 52)
    with (((n + 1) * 2 ^ (52 - Z.log2 (n + 1))) * 2 ^ (Z.log2 (n + 1) + 1)).
  - assert (HM' : 0 < (n + 1) * 2 ^ (52 - Z.log2 (n + 1)))
      by (apply Z.mul_pos_pos; [lia|apply Z.pow_pos_nonneg; lia]).
    rewrite binary_normalize_exact; [|assumption|lia| |lia].
    + replace (-53 + (Z.log2 (n + 1) + 1)) with (Z.log2 (n + 1) - 52) by lia.
      rewrite <- of_Z_exact by (change (2 ^ 53) with (2 * 2 ^ 52); lia).
      apply floor_of_Z. change (2 ^ 53) with (2 * 2 ^ 52). lia.
    + rewrite !Zdigits2_mul_pow2 by lia.
      destruct (n + 1) as [|q|q] eqn:Eq; try lia.
      rewrite Zdigits2_log2. unfold fexp, emin, F64.prec, F64.emax. lia.
  - rewrite <- !Z.mul_assoc, <- !Z.pow_add_r by lia.
    replace (52 - Z.log2 (n + 1) + (Z.log2 (n + 1) + 1)) with 53 by lia.
    replace (51 - Z.log2 n + (Z.log2 n - 52 + 53)) with 52 by lia.
    change (2 ^ 53) with (2 * 2 ^ 52). ring.
Qed.

Lemma round_half_up_witness :
  round (F64.add (F64.of_Z 255) F64.c0_5) = F64.of_Z 256 /\
  F64.add (F64.of_Z 255) F64.c0_5 = F64.div (F64.of_Z 25550) F64.c100.
Proof.
  split; [|vm_compute; reflexivity].
  apply (round_half_up 255). split; [lia|reflexivity].
Defined.

(** X16: [uint(float64(n))] gives [n] back for every integer [n] from 0
    below [2^53], whatever the implementation does out of range. *)
Theorem uint_of_float64_of_Z (uint_overflow : F64.float64 -> Z) (n : Z) :
  0 <= n < 2 ^ 53 -> uint_of_float64 uint_overflow (F64.of_Z n) = n.
Proof.
  intros Hn. destruct (Z.eq_dec n 0) as [->|Hne]; [reflexivity|].
  assert (Hl : 0 <= Z.log2 n < 53).
  { split; [apply Z.log2_nonneg|apply Z.log2_lt_pow2; lia]. }
  rewrite of_Z_exact by lia.
  unfold uint_of_float64, float64_to_uint, F64.truncZ, cond_Zopp.
  assert (Hp : 0 < n * 2 ^ (52 - Z.log2 n))
    by (apply Z.mul_pos_pos; [lia|apply Z.pow_pos_nonneg; lia]).
  rewrite Z2Pos.id by assumption.
  rewrite Z.shiftl_div_pow2 by lia.
  replace (- (Z.log2 n - 52)) with (52 - Z.log2 n) by lia.
  rewrite Z.div_mul by (apply Z.pow_nonzero; lia).
  replace ((0 <=? n) && (n <? 2 ^ uint_bits)) with true; [reflexivity|].
  symmetry. apply andb_true_iff. rewrite Z.leb_le, Z.ltb_lt.
  assert (2 ^ 53 < 2 ^ uint_bits) by reflexivity. lia.
Qed.

Lemma uint_of_float64_of_Z_witness :
  uint_of_float64 uint_overflow_sat (F64.of_Z (2 ^ 53 - 1)) = 2 ^ 53 - 1 /\
  uint_of_float64 uint_overflow_sat (F64.of_Z (2 ^ 53 + 1)) = 2 ^ 53.
Proof.
  split; [|vm_compute; reflexivity].
  apply (uint_of_float64_of_Z uint_overflow_sat (2 ^ 53 - 1)).
  split; [discriminate|reflexivity].
Defined.
